(** * ChapterSmith backend: word-range enforcement, chapter synthesis and
      the project/chapter store operations of [main.py], with the schema
      constraints of [schemas.py].

    Python [str] values are sequences of Unicode code points; they are
    modelled as lists of code points so that [str.split], [str.join],
    [str.rfind], slicing and [str.strip] can be written out as the
    interpreter performs them. *)

From Stdlib Require Import ZArith NArith List Ascii String Lia Bool DecimalString.
From stdpp Require Import base option list gmap.

Local Open Scope nat_scope.

(** ** Strings *)

Module Py.

Definition char := N.
Definition str := list char.

(** A literal of the source, given by its ASCII text. *)
Fixpoint of_string (s : string) : str :=
  match s with
  | EmptyString => []
  | String a s' => N_of_ascii a :: of_string s'
  end.

(** [str.isspace] on one code point: the interpreter's whitespace table. *)
Definition isspace (c : char) : bool :=
  ((9 <=? c) && (c <=? 13) || (28 <=? c) && (c <=? 32)
   || (c =? 133) || (c =? 160) || (c =? 5760)
   || (8192 <=? c) && (c <=? 8202)
   || (c =? 8232) || (c =? 8233) || (c =? 8239) || (c =? 8287)
   || (c =? 12288))%N.

(** Line boundaries recognised by [str.splitlines]. *)
Definition is_linebreak (c : char) : bool :=
  ((10 <=? c) && (c <=? 13) || (28 <=? c) && (c <=? 30)
   || (c =? 133) || (c =? 8232) || (c =? 8233))%N.

Definition starts_word (s : str) : bool :=
  match s with
  | c :: _ => negb (isspace c)
  | [] => false
  end.

(** Put the non-space character [c] in front of the words of the rest of
    the string: it extends the first word when the rest starts inside a
    word, and is a word of its own otherwise. *)
Definition cons_word (c : char) (glue : bool) (ws : list str) : list str :=
  match ws with
  | w :: ws' => if glue then (c :: w) :: ws' else [c] :: ws
  | [] => [[c]]
  end.

(** [s.split()]: the maximal runs of non-whitespace characters. *)
Fixpoint split (s : str) : list str :=
  match s with
  | [] => []
  | c :: s' =>
      if isspace c then split s'
      else cons_word c (starts_word s') (split s')
  end.

(** [sep.join(ws)]. *)
Fixpoint join (sep : str) (ws : list str) : str :=
  match ws with
  | [] => []
  | [w] => w
  | w :: ws' => w ++ sep ++ join sep ws'
  end.

(** [s.lstrip(chars)], [s.rstrip(chars)] and [s.strip(chars)], the set of
    characters given as a predicate. *)
Fixpoint lstrip (P : char -> bool) (s : str) : str :=
  match s with
  | c :: s' => if P c then lstrip P s' else s
  | [] => []
  end.

Definition rstrip (P : char -> bool) (s : str) : str :=
  reverse (lstrip P (reverse s)).

Definition strip (P : char -> bool) (s : str) : str :=
  rstrip P (lstrip P s).

(** Truth value of a string: non-empty. *)
Definition truthy (s : str) : bool :=
  match s with [] => false | _ => true end.

Fixpoint rfind_from (c : char) (s : str) (i last : Z) : Z :=
  match s with
  | [] => last
  | x :: s' => rfind_from c s' (i + 1)%Z (if (x =? c)%N then i else last)
  end.

(** [s.rfind(c)] for a one-character needle: the highest index of [c], or
    -1. *)
Definition rfind (c : char) (s : str) : Z := rfind_from c s 0%Z (-1)%Z.

(** [s.splitlines()]: [acc] is the current line, reversed; [after_cr]
    records that the previous character was a carriage return, whose
    following line feed belongs to the same boundary. *)
Fixpoint splitlines_go (after_cr : bool) (acc : str) (s : str) : list str :=
  match s with
  | [] => match acc with [] => [] | _ => [reverse acc] end
  | c :: s' =>
      if (c =? 10)%N && after_cr then splitlines_go false acc s'
      else if is_linebreak c then reverse acc :: splitlines_go (c =? 13)%N [] s'
      else splitlines_go false (c :: acc) s'
  end.

Definition splitlines (s : str) : list str := splitlines_go false [] s.

(** [str(n)] for an integer. *)
Definition of_int (n : Z) : str := of_string (NilZero.string_of_int (Z.to_int n)).

Definition eqb (a b : str) : bool := bool_decide (a = b).

(** A word: a non-empty string without whitespace, as [split] produces. *)
Definition is_word (w : str) : Prop :=
  w <> [] /\ Forall (fun c => isspace c = false) w.

End Py.

Abbreviation pystr := Py.str.
Notation "'py' s" := (Py.of_string s%string) (at level 1, s at level 0, only parsing).

(** ** Utilities of [main.py] *)

Definition space : pystr := py " ".
Definition dot : Py.char := 46%N.

(** [resolve_chapter_pov]. *)
Definition resolve_chapter_pov (pov_mode : pystr) (chapter_number : Z) : pystr :=
  if Py.eqb pov_mode (py "female") then py "female"
  else if Py.eqb pov_mode (py "male") then py "male"
  else if (chapter_number mod 2 =? 1)%Z then py "female" else py "male".

(** [compute_word_count]. *)
Definition compute_word_count (text : pystr) : nat :=
  length (List.filter (fun w => Py.truthy (Py.strip Py.isspace w)) (Py.split text)).

Definition target_min : nat := 1400.
Definition target_max : nat := 1800.

Definition filler : pystr :=
  py " I took my time and described what happened in a clear way. I kept the focus on"
  ++ py " real details, steady thoughts, and simple actions. I stayed in first person and"
  ++ py " let each moment breathe without sounding poetic or dramatic.".

(** The padding loop of [enforce_word_range]: one unit of [fuel] per
    iteration of [while n < target_min]. *)
Fixpoint pad_loop (fuel : nat) (words : list pystr) : option (list pystr) :=
  if length words <? target_min then
    match fuel with
    | O => None
    | S fuel' => pad_loop fuel' (words ++ Py.split filler)
    end
  else Some words.

(** The branch [elif n > target_max] of [enforce_word_range]. *)
Definition trim_long (words : list pystr) : pystr :=
  let trimmed := Py.join space (take target_max words) in
  let last_dot := Py.rfind dot trimmed in
  if negb (last_dot =? -1)%Z && (Z.of_nat target_max - 200 <? last_dot)%Z
  then take (Z.to_nat (last_dot + 1)) trimmed
  else trimmed.

(** [enforce_word_range], the padding loop bounded by [fuel]. *)
Definition enforce_word_range_fuel (fuel : nat) (text : pystr) : option pystr :=
  let words := Py.split text in
  let n := length words in
  if n <? target_min then
    words' ← pad_loop fuel words;
    Some (Py.join space (take target_max words'))
  else if target_max <? n then Some (trim_long words)
  else Some (Py.join space (take target_max words)).

(** The functions above never run out of fuel when given enough of it
    (see [pad_loop_terminates] below); the total function takes one unit of
    fuel per missing word, which is more than the loop can use. *)
Definition enforce_word_range (text : pystr) : pystr :=
  default text (enforce_word_range_fuel target_min text).

(** ** The chapter text synthesizer *)

Definition header (pov : pystr) : pystr :=
  py "This chapter follows the outline and continues the story in a clear, human voice. "
  ++ py "I speak in first person as the " ++ pov ++ py " lead. The tone is natural and steady. "
  ++ py "The setting and actions are grounded in small details.".

(** The characters of [strip("- •\n ")]: hyphen, space, bullet, line feed. *)
Definition bullet_chars (c : Py.char) : bool :=
  ((c =? 45) || (c =? 32) || (c =? 8226) || (c =? 10))%N.

Definition default_part : pystr :=
  py "The story setup is simple. I meet the other lead and a problem starts.".

(** [[p.strip("- •\n ") for p in outline.splitlines() if p.strip()]], with
    the fallback of an outline without lines. *)
Definition outline_parts (outline : pystr) : list pystr :=
  let parts :=
    map (Py.strip bullet_chars)
        (List.filter (fun p => Py.truthy (Py.strip Py.isspace p)) (Py.splitlines outline)) in
  match parts with
  | [] => [default_part]
  | _ => parts
  end.

Definition genre_note (genre : pystr) : pystr :=
  if Py.eqb genre (py "billionaire") then
    py " There is a quiet tension between wealth and loneliness. Power shows up in small practical ways."
  else if Py.eqb genre (py "werewolf") then
    py " Instinct and duty pull at me. I notice heat, breath, and the press of the crowd without exaggeration."
  else if Py.eqb genre (py "mafia") then
    py " Danger is present but not sensational. Trust is fragile and every choice has a cost."
  else [].

Definition intro (chapter_idx chapter_total : Z) (genre : pystr) : pystr :=
  py "It is chapter " ++ Py.of_int chapter_idx ++ py " of " ++ Py.of_int chapter_total
  ++ py ". I keep the pacing even and I move from one scene to the next"
  ++ py " without jumps. I react in real time with simple thoughts and clean sentences."
  ++ genre_note genre.

(** The five lines appended for the [i]-th (from 0) outline part. *)
Definition scene (i : nat) (p : pystr) : list pystr :=
  [ py "Scene " ++ Py.of_int (Z.of_nat i + 1) ++ py ": " ++ p
      ++ py ". I look for what matters right now. I describe only what I would notice.";
    py "I watch faces and hands. I listen for tone. I keep my feelings steady and honest.";
    py "I let the moment slow enough to understand it, then I make a choice that moves the scene forward.";
    py "Dialogue feels natural. I speak in clear sentences. I avoid dramatic fragments and fancy images.";
    py "My body tells a simple truth: my breath changes, my shoulders tense, my hands warm or cool." ].

Definition closing : list pystr :=
  [ py "I stay consistent with point of view. I keep it personal and close. I do not summarize the story.";
    py "When I think of the other lead, I admit what I want and what I fear, even if I do not say it out loud.";
    py "The chapter closes on a clean beat. I do not end with a slogan. I end with a small decision or a question that matters." ].

Definition chapter_lines (parts : list pystr) (chapter_idx chapter_total : Z)
    (pov genre : pystr) : list pystr :=
  [header pov; intro chapter_idx chapter_total genre]
  ++ concat (imap scene (take 8 parts))
  ++ closing.

(** The text one iteration of the elaboration loop appends, in two
    steps: the formatted paragraph around [step], then a fixed paragraph.
    The accented letter of the source is code point 233. *)
Definition elaboration_head : pystr :=
  py " I take one more careful step in this situation: ".

Definition elaboration_tail : pystr :=
  py ". I ask a direct question, I listen,"
  ++ py " and I notice how my chest feels and how my thoughts settle. I choose clear words and I keep the pace even.".

Definition elaboration_fixed : pystr :=
  py " I avoid clich" ++ [233%N]
  ++ py "s. I use plain language. I stay with the present scene and I let the next moment lead me.".

Definition elaboration (step : pystr) : pystr :=
  (elaboration_head ++ step ++ elaboration_tail) ++ elaboration_fixed.

Definition elaboration_target : nat := 1450.

(** The loop [while compute_word_count(base) < 1450], one unit of [fuel]
    per iteration. Indexing an empty [cycle] raises in the source and gives
    no result here. *)
Fixpoint elaborate (fuel : nat) (cycle : list pystr) (idx : nat) (base : pystr)
    : option pystr :=
  if compute_word_count base <? elaboration_target then
    match fuel with
    | O => None
    | S fuel' =>
        step ← cycle !! (idx mod length cycle);
        elaborate fuel' cycle (idx + 1) (base ++ elaboration step)
    end
  else Some base.

(** [grounded_chapter_generator], both loops bounded by [fuel]. *)
Definition grounded_chapter_generator_fuel (fuel : nat) (outline : pystr)
    (chapter_idx chapter_total : Z) (pov genre : pystr) : option pystr :=
  let parts := outline_parts outline in
  let base := Py.join space (chapter_lines parts chapter_idx chapter_total pov genre) in
  let cycle := match parts with [] => [py "progress"] | _ => parts end in
  base' ← elaborate fuel cycle 0 base;
  enforce_word_range_fuel fuel base'.

(** The total function: one unit of fuel per word of the target is more
    than either loop can use (see [grounded_chapter_generator_fuel_terminates]). *)
Definition grounded_chapter_generator (outline : pystr)
    (chapter_idx chapter_total : Z) (pov genre : pystr) : pystr :=
  default [] (grounded_chapter_generator_fuel elaboration_target outline
                chapter_idx chapter_total pov genre).

(** ** Schemas ([schemas.py]) *)

Definition Timestamp := Z.

Record Chapter := {
  ch_number : Z;
  ch_title : pystr;
  ch_text : pystr;
  ch_word_count : Z;
  ch_pov : pystr;
  ch_created_at : option Timestamp;
  ch_updated_at : option Timestamp
}.

Record Project := {
  p_name : pystr;
  p_outline : pystr;
  p_chapter_count : Z;
  p_pov_mode : pystr;
  p_genre : option pystr;
  p_rules : option pystr;
  p_chapters : list Chapter;
  p_created_at : option Timestamp;
  p_updated_at : option Timestamp
}.

Record GenerateChapterRequest := {
  req_chapter_number : Z;
  req_user_instructions : option pystr
}.

Record EditChapterRequest := {
  body_title : option pystr;
  body_text : option pystr
}.

(** Membership in a [Literal[...]] type. *)
Definition literal (allowed : list pystr) (s : pystr) : bool :=
  existsb (Py.eqb s) allowed.

(** The field constraints of [Chapter]. *)
Definition Chapter_validate (c : Chapter) : bool :=
  (1 <=? ch_number c)%Z
  && (1 <=? length (ch_title c))
  && (1 <=? length (ch_text c))
  && (0 <=? ch_word_count c)%Z
  && literal [py "female"; py "male"] (ch_pov c).

(** The field constraints of [Project]. *)
Definition Project_validate (p : Project) : bool :=
  (3 <=? p_chapter_count p)%Z && (p_chapter_count p <=? 6)%Z
  && literal [py "female"; py "male"; py "dual"] (p_pov_mode p)
  && match p_genre p with
     | None => true
     | Some g => literal [py "billionaire"; py "werewolf"; py "mafia"; py "general"] g
     end
  && forallb Chapter_validate (p_chapters p).

(** ** Effects: exceptions, the clock and the document store *)

Inductive Error :=
  | HTTPException (status_code : Z) (detail : string)
  | ValidationError
  | AttributeError
  | InvalidId.

Definition InvalidRange : Error := HTTPException 400 "Chapter number out of range".
Definition InvalidIdentifier : Error := HTTPException 400 "Invalid project id".
Definition ProjectNotFound : Error := HTTPException 404 "Project not found".
Definition ChapterNotFound : Error := HTTPException 404 "Chapter not found".
Definition StoreUnavailable : Error := HTTPException 500 "Database not configured".

(** The state a request handler runs in: the [project] collection of the
    database ([None] when no database is configured), keyed by object
    identifier, and the system clock, given as the sequence of its future
    readings and the number of readings taken so far. *)
Record World := {
  db : option (gmap N Project);
  clock : nat -> Timestamp;
  ticks : nat
}.

Inductive Result (A : Type) :=
  | Ok (a : A)
  | Raise (e : Error).
Arguments Ok {A} a.
Arguments Raise {A} e.

Definition M (A : Type) : Type := World -> Result A * World.

Definition ret {A} (a : A) : M A := fun w => (Ok a, w).
Definition raise {A} (e : Error) : M A := fun w => (Raise e, w).
Definition bind {A B} (m : M A) (k : A -> M B) : M B :=
  fun w => match m w with
           | (Ok a, w') => k a w'
           | (Raise e, w') => (Raise e, w')
           end.
(** [try: m  except Exception: h]. *)
Definition try_except {A} (m : M A) (h : Error -> M A) : M A :=
  fun w => match m w with
           | (Ok a, w') => (Ok a, w')
           | (Raise e, w') => h e w'
           end.

Notation "x <- m ;; k" := (bind m (fun x => k))
  (at level 100, m at next level, right associativity).
Notation "m ;;; k" := (bind m (fun _ => k))
  (at level 100, right associativity).

(** One more reading of the clock has been taken. *)
Definition tick (w : World) : World :=
  {| db := db w; clock := clock w; ticks := S (ticks w) |}.

(** [datetime.now(timezone.utc)]. *)
Definition now : M Timestamp :=
  fun w => (Ok (clock w (ticks w)), tick w).

(** [collection]. *)
Definition collection (name : string) : M (gmap N Project) :=
  fun w => match db w with
           | None => (Raise StoreUnavailable, w)
           | Some coll => (Ok coll, w)
           end.

Definition hex_digit (c : Py.char) : option N :=
  (if (48 <=? c) && (c <=? 57) then Some (c - 48)
   else if (97 <=? c) && (c <=? 102) then Some (c - 87)
   else if (65 <=? c) && (c <=? 70) then Some (c - 55)
   else None)%N.

Fixpoint hex_value (acc : N) (s : pystr) : option N :=
  match s with
  | [] => Some acc
  | c :: s' => d ← hex_digit c; hex_value (16 * acc + d)%N s'
  end.

(** Modelled from the spec: the store's identifier type, which is not part
    of the sources. An identifier is syntactically valid when it is written
    as 24 hexadecimal digits. *)
Definition parse_oid (project_id : pystr) : option N :=
  if length project_id =? 24 then hex_value 0 project_id else None.

(** [ObjectId(project_id)]: raises on a malformed identifier. *)
Definition ObjectId (project_id : pystr) : M N :=
  match parse_oid project_id with
  | Some oid => ret oid
  | None => raise InvalidId
  end.

(** Modelled from the spec: [find_one] by identifier on the [project]
    collection of the absent [database] module. *)
Definition find_one (coll : gmap N Project) (oid : N) : M (option Project) :=
  ret (coll !! oid).

(** The update document [{"$set": {"chapters": ..., "updated_at": ...}}]
    applied to a project document. *)
Definition set_chapters (chapters : list Chapter) (t : Timestamp) (p : Project) : Project :=
  {| p_name := p_name p; p_outline := p_outline p;
     p_chapter_count := p_chapter_count p;
     p_pov_mode := p_pov_mode p; p_genre := p_genre p;
     p_rules := p_rules p; p_chapters := chapters;
     p_created_at := p_created_at p;
     p_updated_at := Some t |}.

(** Modelled from the spec: [update_one] by identifier with that update
    document, on the absent [database] module; a filter that matches no
    document changes nothing. *)
Definition update_one_set (oid : N) (chapters : list Chapter) (t : Timestamp) : M unit :=
  fun w =>
    (Ok tt,
     {| db := alter (set_chapters chapters t) oid <$> db w;
        clock := clock w; ticks := ticks w |}).

(** The lookup every handler starts with: any exception of the lookup is
    turned into a 400, a missing document into a 404. *)
Definition find_project (project_id : pystr) : M Project :=
  doc <- try_except
           (coll <- collection "project" ;;
            oid <- ObjectId project_id ;;
            find_one coll oid)
           (fun _ => raise InvalidIdentifier) ;;
  match doc with
  | None => raise ProjectNotFound
  | Some d => ret d
  end.

(** The write-back every handler ends with. *)
Definition store_chapters (project_id : pystr) (chapters : list Chapter) : M unit :=
  collection "project" ;;;
  oid <- ObjectId project_id ;;
  t <- now ;;
  update_one_set oid chapters t.

(** The construction of a [Project] from the fields of the stored
    document: schema validation. *)
Definition Project_of_doc (doc : Project) : M Project :=
  if Project_validate doc then ret doc else raise ValidationError.

(** [Chapter(number=..., title=..., text=..., word_count=..., pov=...)]:
    the timestamps are left unset, the fields are validated. *)
Definition Chapter_new (number : Z) (title text : pystr) (word_count : Z)
    (pov : pystr) : M Chapter :=
  let c := {| ch_number := number; ch_title := title; ch_text := text;
              ch_word_count := word_count; ch_pov := pov;
              ch_created_at := None; ch_updated_at := None |} in
  if Chapter_validate c then ret c else raise ValidationError.

(** [project.genre or "general"]. *)
Definition genre_or_general (g : option pystr) : pystr :=
  match g with
  | Some (c :: s) => c :: s
  | _ => py "general"
  end.

Definition set_timestamps (c : Chapter) (created updated : Timestamp) : Chapter :=
  {| ch_number := ch_number c; ch_title := ch_title c; ch_text := ch_text c;
     ch_word_count := ch_word_count c; ch_pov := ch_pov c;
     ch_created_at := Some created; ch_updated_at := Some updated |}.

Definition set_title (c : Chapter) (t : pystr) : Chapter :=
  {| ch_number := ch_number c; ch_title := t; ch_text := ch_text c;
     ch_word_count := ch_word_count c; ch_pov := ch_pov c;
     ch_created_at := ch_created_at c; ch_updated_at := ch_updated_at c |}.

Definition set_text (c : Chapter) (t : pystr) (wc : Z) : Chapter :=
  {| ch_number := ch_number c; ch_title := ch_title c; ch_text := t;
     ch_word_count := wc; ch_pov := ch_pov c;
     ch_created_at := ch_created_at c; ch_updated_at := ch_updated_at c |}.

Definition set_updated_at (c : Chapter) (t : Timestamp) : Chapter :=
  {| ch_number := ch_number c; ch_title := ch_title c; ch_text := ch_text c;
     ch_word_count := ch_word_count c; ch_pov := ch_pov c;
     ch_created_at := ch_created_at c; ch_updated_at := Some t |}.

(** ** Routes *)

(** The text of a generated chapter and its derived fields, shared by
    [generate_chapter] and [generate_all]. *)
Definition chapter_text (project : Project) (ch_num : Z) : pystr :=
  grounded_chapter_generator (p_outline project) ch_num (p_chapter_count project)
    (resolve_chapter_pov (p_pov_mode project) ch_num)
    (genre_or_general (p_genre project)).

Definition chapter_title (ch_num : Z) : pystr := py "Chapter " ++ Py.of_int ch_num.

(** [if req.user_instructions: text += ...; text = enforce_word_range(text)]. *)
Definition apply_instructions (instructions : option pystr) (text : pystr) : pystr :=
  match instructions with
  | Some (c :: i) =>
      enforce_word_range
        (text ++ space
         ++ (py "Adjustment note applied: " ++ Py.strip Py.isspace (c :: i)
             ++ py " I keep the same plot and tone while refining moments."))
  | _ => text
  end.

(** The search for the chapter to replace in [generate_chapter]. The
    elements of [project.chapters] are [Chapter] objects of the schema, not
    dictionaries: they have no [get] method, so the test of the first
    element raises before the [getattr] alternative is tried. *)
Definition existing_index (chapters : list Chapter) (ch_num : Z) : M (option nat) :=
  match chapters with
  | [] => ret None
  | _ :: _ => raise AttributeError
  end.

(** [generate_chapter]. *)
Definition generate_chapter (project_id : pystr) (req : GenerateChapterRequest)
    : M Chapter :=
  doc <- find_project project_id ;;
  project <- Project_of_doc doc ;;
  let ch_num := req_chapter_number req in
  if (ch_num <? 1)%Z || (p_chapter_count project <? ch_num)%Z then raise InvalidRange
  else
    let pov := resolve_chapter_pov (p_pov_mode project) ch_num in
    let text := apply_instructions (req_user_instructions req) (chapter_text project ch_num) in
    let wc := compute_word_count text in
    chapter <- Chapter_new ch_num (chapter_title ch_num) text (Z.of_nat wc) pov ;;
    let chapters := p_chapters project in
    existing_idx <- existing_index chapters ch_num ;;
    created <- now ;;
    updated <- now ;;
    let ch_dict := set_timestamps chapter created updated in
    let chapters' :=
      match existing_idx with
      | None => chapters ++ [ch_dict]
      | Some i => <[i := ch_dict]> chapters
      end in
    store_chapters project_id chapters' ;;;
    ret ch_dict.

(** The loop of [generate_all] over the remaining chapter numbers. *)
Fixpoint generate_all_loop (project : Project) (nums : list Z)
    (chapters : list Chapter) : M (list Chapter) :=
  match nums with
  | [] => ret chapters
  | ch_num :: nums' =>
      let pov := resolve_chapter_pov (p_pov_mode project) ch_num in
      let text := chapter_text project ch_num in
      let wc := compute_word_count text in
      chapter <- Chapter_new ch_num (chapter_title ch_num) text (Z.of_nat wc) pov ;;
      created <- now ;;
      updated <- now ;;
      generate_all_loop project nums' (chapters ++ [set_timestamps chapter created updated])
  end.

(** [generate_all]; [range(1, chapter_count + 1)] is [seqZ 1 chapter_count]. *)
Definition generate_all (project_id : pystr) : M nat :=
  doc <- find_project project_id ;;
  project <- Project_of_doc doc ;;
  chapters <- generate_all_loop project (seqZ 1 (p_chapter_count project)) [] ;;
  store_chapters project_id chapters ;;;
  ret (length chapters).

(** The fields [edit_chapter] assigns to the addressed chapter. *)
Definition edit_fields (body : EditChapterRequest) (c : Chapter) : Chapter :=
  let c1 := match body_title body with
            | Some t => set_title c t
            | None => c
            end in
  match body_text body with
  | Some t =>
      let t' := enforce_word_range t in
      set_text c1 t' (Z.of_nat (compute_word_count t'))
  | None => c1
  end.

(** [edit_chapter]. *)
Definition edit_chapter (project_id : pystr) (chapter_number : Z)
    (body : EditChapterRequest) : M Chapter :=
  doc <- find_project project_id ;;
  let chapters := p_chapters doc in
  match list_find (fun c => ch_number c = chapter_number) chapters with
  | None => raise ChapterNotFound
  | Some (idx, c) =>
      t <- now ;;
      let c' := set_updated_at (edit_fields body c) t in
      let chapters' := <[idx := c']> chapters in
      store_chapters project_id chapters' ;;;
      ret c'
  end.

(** The project document stored under an identifier, if any: what the
    statements below say about the store. *)
Definition stored_project (w : World) (project_id : pystr) : option Project :=
  coll ← db w; oid ← parse_oid project_id; coll !! oid.

(** The invariant relating the derived field of a chapter to its text. *)
Definition word_count_consistent (c : Chapter) : Prop :=
  ch_word_count c = Z.of_nat (compute_word_count (ch_text c)).

(** The value of a result, with a default for a raised exception. *)
Definition result_value {A} (d : A) (r : Result A) : A :=
  match r with
  | Ok a => a
  | Raise _ => d
  end.

(** ** Inputs used in the examples below *)

(** 1801 one-letter words, the 802nd being a lone full stop: the only full
    stop of the text is at character index 1602. *)
Definition long_input : pystr :=
  Py.join space (replicate 801 (py "a") ++ [py "."] ++ replicate 999 (py "a")).

(** 1400 one-letter words after a leading space. *)
Definition spaced_input : pystr :=
  space ++ Py.join space (replicate 1400 (py "a")).

(** A two-line outline, as in the scenario of the specification. *)
Definition sample_outline : pystr :=
  py "A meets B." ++ [10%N] ++ py "They argue.".

(** A two-line outline whose lines have one and two words. *)
Definition uneven_outline : pystr :=
  py "a" ++ [10%N] ++ py "b c".

(** A one-line outline of 1901 words whose only full stop ends its 701st
    word. *)
Definition run_on_outline : pystr :=
  Py.join space (replicate 700 (py "a") ++ [py "a."] ++ replicate 1200 (py "a")).

Definition sample_id : pystr := py "000000000000000000000001".

Definition sample_project (outline : pystr) (chapters : list Chapter) : Project :=
  {| p_name := py "story"; p_outline := outline; p_chapter_count := 3;
     p_pov_mode := py "dual"; p_genre := Some (py "general"); p_rules := None;
     p_chapters := chapters; p_created_at := Some 0%Z; p_updated_at := Some 0%Z |}.

Definition sample_chapter (number : Z) (title : pystr) : Chapter :=
  {| ch_number := number; ch_title := title; ch_text := py "It starts.";
     ch_word_count := 2; ch_pov := py "female";
     ch_created_at := Some 0%Z; ch_updated_at := Some 0%Z |}.

(** A world holding one project; the clock reads 1, 2, 3, ... *)
Definition sample_world (p : Project) : World :=
  {| db := Some {[ 1%N := p ]}; clock := fun k => Z.of_nat (S k); ticks := 0 |}.

Definition no_instructions (chapter_number : Z) : GenerateChapterRequest :=
  {| req_chapter_number := chapter_number; req_user_instructions := None |}.

Definition text_only (t : pystr) : EditChapterRequest :=
  {| body_title := None; body_text := Some t |}.

Definition title_only (t : pystr) : EditChapterRequest :=
  {| body_title := Some t; body_text := None |}.

(** ** The remaining routes *)

(** Modelled from the spec: [find_one] returns the document with its
    identifier under the key [_id]; the identifier is kept beside the
    fields of the document. *)
Definition find_document (project_id : pystr) : M (option (N * Project)) :=
  try_except
    (coll <- collection "project" ;;
     oid <- ObjectId project_id ;;
     doc <- find_one coll oid ;;
     ret (pair oid <$> doc))
    (fun _ => raise InvalidIdentifier).

(** [serialize_id]: the key [_id] is replaced by the key [id], which holds
    the identifier in the string form of the driver; an absent (falsy)
    document is returned as it is. *)
Record Serialized := {
  s_id : N;
  s_doc : Project
}.

Definition serialize_id (doc : option (N * Project)) : option Serialized :=
  match doc with
  | None => None
  | Some (oid, d) => Some {| s_id := oid; s_doc := d |}
  end.

(** [get_project]. *)
Definition get_project (project_id : pystr) : M (option Serialized) :=
  doc <- find_document project_id ;;
  match doc with
  | None => raise ProjectNotFound
  | Some _ => ret (serialize_id doc)
  end.

(** Modelled from the spec: [delete_one] by identifier on the absent
    [database] module; the result is the number of documents removed. *)
Definition delete_one (oid : N) : M nat :=
  fun w =>
    (Ok (match coll ← db w; coll !! oid with Some _ => 1 | None => 0 end),
     {| db := delete oid <$> db w; clock := clock w; ticks := ticks w |}).

(** [delete_project]: the whole body is inside the [try]. *)
Definition delete_project (project_id : pystr) : M bool :=
  try_except
    (collection "project" ;;;
     oid <- ObjectId project_id ;;
     deleted_count <- delete_one oid ;;
     ret (deleted_count =? 1))
    (fun _ => raise InvalidIdentifier).

(** [copy_chapter_text]: the title, text and word count of the first
    chapter with the number. *)
Definition copy_chapter_text (project_id : pystr) (chapter_number : Z)
    : M (pystr * pystr * Z) :=
  doc <- find_project project_id ;;
  match list_find (fun c => ch_number c = chapter_number) (p_chapters doc) with
  | None => raise ChapterNotFound
  | Some (_, c) => ret (ch_title c, ch_text c, ch_word_count c)
  end.

Record CreateProjectRequest := {
  new_name : pystr;
  new_outline : pystr;
  new_chapter_count : Z;
  new_pov_mode : pystr;
  new_genre : option pystr;
  new_rules : option pystr
}.

(** The project [create_project] builds from a request at time [t]. *)
Definition new_project (req : CreateProjectRequest) (t : Timestamp) : Project :=
  {| p_name := new_name req; p_outline := new_outline req;
     p_chapter_count := new_chapter_count req;
     p_pov_mode := new_pov_mode req; p_genre := new_genre req;
     p_rules := new_rules req; p_chapters := [];
     p_created_at := Some t; p_updated_at := Some t |}.

(** [create_project]. The helper [create_document] of the absent
    [database] module is a parameter. *)
Definition create_project (create_document : string -> Project -> M pystr)
    (req : CreateProjectRequest) : M pystr :=
  t <- now ;;
  project <- Project_of_doc (new_project req t) ;;
  pid <- create_document "project"%string project ;;
  ret pid.

(** ** Relations between the worlds before and after a request *)

(** The document stored under an identifier. *)
Definition lookup_doc (w : World) (oid : N) : option Project :=
  coll ← db w; coll !! oid.

(** From [w] to [w'] only the document addressed by [project_id] may have
    changed: every other document is the same, no document has appeared or
    disappeared, and the clock has only been read. *)
Definition only_project_changed (project_id : pystr) (w w' : World) : Prop :=
  (forall oid, parse_oid project_id <> Some oid -> lookup_doc w' oid = lookup_doc w oid)
  /\ (forall oid, is_Some (lookup_doc w' oid) <-> is_Some (lookup_doc w oid))
  /\ (is_Some (db w') <-> is_Some (db w))
  /\ clock w' = clock w
  /\ ticks w <= ticks w'.

(** An action keeps a relation between the worlds before and after it,
    whatever its outcome. *)
Definition keeps {A} (R : World -> World -> Prop) (m : M A) : Prop :=
  forall w, R w (snd (m w)).

(** An action that fails has not written to the store. *)
Definition fails_clean {A} (m : M A) : Prop :=
  forall w e, fst (m w) = Raise e -> db (snd (m w)) = db w.

(** A world without a configured database. *)
Definition unconfigured_world : World :=
  {| db := None; clock := fun k => Z.of_nat (S k); ticks := 0 |}.

(** A well-formed identifier that [sample_world] does not hold. *)
Definition other_id : pystr := py "0000000000000000000000ff".

Definition sample_request : CreateProjectRequest :=
  {| new_name := py "story"; new_outline := sample_outline;
     new_chapter_count := 7; new_pov_mode := py "dual";
     new_genre := Some (py "general"); new_rules := None |}.

(** * Properties of the string layer *)

Module PyFacts.
Import Py.

Lemma cons_word_false c ws : cons_word c false ws = [c] :: ws.
Proof. by destruct ws. Qed.

Lemma cons_word_neq_nil c g ws : cons_word c g ws <> [].
Proof. by destruct ws, g. Qed.

Lemma cons_word_app c g ws ws' :
  (g = true -> ws <> []) ->
  cons_word c g (ws ++ ws') = cons_word c g ws ++ ws'.
Proof.
  destruct g.
  - intros H. destruct ws as [|w ws]; [by destruct H|done].
  - intros _. by rewrite !cons_word_false.
Qed.

Lemma length_cons_word c g ws :
  length ws <= length (cons_word c g ws) <= S (length ws).
Proof. destruct ws, g; simpl; lia. Qed.

Lemma starts_word_split s : starts_word s = true -> split s <> [].
Proof.
  destruct s as [|c s]; simpl; [done|].
  intros H. apply negb_true_iff in H. rewrite H. apply cons_word_neq_nil.
Qed.

Lemma split_is_word s : Forall is_word (split s).
Proof.
  induction s as [|c s IH]; simpl; [constructor|].
  destruct (isspace c) eqn:Hc; [done|].
  destruct (split s) as [|w ws]; simpl.
  - repeat constructor; [done|]. by repeat constructor.
  - inversion IH as [|? ? [Hw1 Hw2] Hws]; subst.
    destruct (starts_word s); repeat constructor; try done.
Qed.

Lemma split_app_space a c b :
  isspace c = true -> split (a ++ c :: b) = split a ++ split b.
Proof.
  intros Hc. induction a as [|x a IH]; simpl.
  - by rewrite Hc.
  - destruct (isspace x); [done|]. rewrite IH.
    destruct a as [|y a]; simpl.
    + rewrite Hc. simpl. by rewrite cons_word_false.
    + apply cons_word_app. intros Hy.
      apply (starts_word_split (y :: a)). exact Hy.
Qed.

Lemma split_word w : is_word w -> split w = [w].
Proof.
  intros [Hne Hw]. induction Hw as [|c w Hc Hw IH]; [done|].
  simpl. rewrite Hc. destruct w as [|c' w]; [done|].
  rewrite IH by done. simpl.
  inversion Hw as [|? ? Hc' _]; subst. by rewrite Hc'.
Qed.

Lemma split_join ws :
  Forall is_word ws -> split (join space ws) = ws.
Proof.
  induction 1 as [|w ws Hw Hws IH]; [done|].
  destruct ws as [|w' ws].
  - simpl. by apply split_word.
  - change (join space (w :: w' :: ws)) with (w ++ 32%N :: join space (w' :: ws)).
    rewrite split_app_space by done. rewrite IH. by rewrite split_word.
Qed.

Lemma length_split_app_r a b : length (split b) <= length (split (a ++ b)).
Proof.
  induction a as [|x a IH]; simpl; [done|].
  destruct (isspace x); [done|].
  pose proof (length_cons_word x (starts_word (a ++ b)) (split (a ++ b))). lia.
Qed.

Lemma lstrip_word P w c : P c = false -> lstrip P (c :: w) = c :: w.
Proof. intros H. simpl. by rewrite H. Qed.

Lemma strip_word_truthy w : is_word w -> truthy (strip isspace w) = true.
Proof.
  intros [Hne Hw]. unfold strip, rstrip.
  destruct w as [|c w]; [done|].
  inversion Hw as [|? ? Hc Hw']; subst.
  rewrite lstrip_word by done.
  assert (Hr : Forall (fun c => isspace c = false) (reverse (c :: w)))
    by by apply Forall_reverse.
  destruct (reverse (c :: w)) as [|d r] eqn:Hrev.
  - apply (f_equal (@length _)) in Hrev. rewrite length_reverse in Hrev. done.
  - inversion Hr as [|? ? Hd _]; subst. rewrite lstrip_word by done.
    rewrite <- Hrev, reverse_involutive. done.
Qed.

Lemma compute_word_count_split text :
  compute_word_count text = length (split text).
Proof.
  unfold compute_word_count.
  pose proof (split_is_word text) as H.
  induction H as [|w ws Hw Hws IH]; [done|].
  simpl. rewrite strip_word_truthy by done. simpl. by rewrite IH.
Qed.

End PyFacts.

(** * The word-range enforcement function *)

Section Enforce.
Import Py PyFacts.

Lemma length_filler : length (split filler) = 39.
Proof. reflexivity. Qed.

Lemma filler_words : Forall is_word (split filler).
Proof. apply split_is_word. Qed.

(** One iteration of the padding loop adds exactly 39 words. *)
Lemma pad_step_length (words : list str) :
  length (words ++ split filler) = length words + 39.
Proof. by rewrite length_app, length_filler. Qed.

Lemma pad_loop_O (words : list str) :
  pad_loop 0 words = if length words <? target_min then None else Some words.
Proof. reflexivity. Qed.

Lemma pad_loop_S fuel (words : list str) :
  pad_loop (S fuel) words =
  if length words <? target_min then pad_loop fuel (words ++ split filler)
  else Some words.
Proof. reflexivity. Qed.

Lemma pad_loop_terminates fuel (words : list str) :
  target_min <= length words + 39 * fuel -> is_Some (pad_loop fuel words).
Proof.
  revert words. induction fuel as [|fuel IH]; intros words H.
  - rewrite pad_loop_O. destruct (length words <? target_min) eqn:E; [|by eexists].
    apply Nat.ltb_lt in E. lia.
  - rewrite pad_loop_S. destruct (length words <? target_min) eqn:E; [|by eexists].
    apply IH. rewrite pad_step_length. lia.
Qed.

Lemma pad_loop_spec fuel (words words' : list str) :
  pad_loop fuel words = Some words' ->
  Forall is_word words ->
  Forall is_word words'
  /\ target_min <= length words'
  /\ (length words < target_min -> length words' < target_min + 39)
  /\ (target_min <= length words -> words' = words).
Proof.
  revert words. induction fuel as [|fuel IH]; intros words Hrun Hw;
    [rewrite pad_loop_O in Hrun|rewrite pad_loop_S in Hrun].
  - destruct (length words <? target_min) eqn:E; [done|].
    apply Nat.ltb_ge in E. injection Hrun as <-. split_and!; auto; lia.
  - destruct (length words <? target_min) eqn:E.
    + apply Nat.ltb_lt in E. apply IH in Hrun as (H1 & H2 & H3 & H4).
      * split_and!; [done|done| |lia]. intros _.
        destruct (decide (length (words ++ split filler) < target_min)) as [Hlt|Hge].
        -- by apply H3.
        -- rewrite H4 by lia. rewrite pad_step_length. lia.
      * apply Forall_app. split; [done|apply filler_words].
    + apply Nat.ltb_ge in E. injection Hrun as <-. split_and!; auto; lia.
Qed.

Lemma pad_loop_fuel_mono f1 f2 (words words' : list str) :
  pad_loop f1 words = Some words' -> f1 <= f2 -> pad_loop f2 words = Some words'.
Proof.
  revert f2 words. induction f1 as [|f1 IH]; intros f2 words Hrun Hle.
  - rewrite pad_loop_O in Hrun. destruct (length words <? target_min) eqn:E; [done|].
    destruct f2; [rewrite pad_loop_O|rewrite pad_loop_S]; by rewrite E.
  - destruct f2; [lia|]. rewrite pad_loop_S in *.
    destruct (length words <? target_min); [|done].
    apply IH; [done|lia].
Qed.

Lemma enforce_word_range_fuel_mono f1 f2 text r :
  enforce_word_range_fuel f1 text = Some r -> f1 <= f2 ->
  enforce_word_range_fuel f2 text = Some r.
Proof.
  unfold enforce_word_range_fuel. intros H Hle.
  destruct (length (split text) <? target_min); [|done].
  destruct (pad_loop f1 (split text)) as [ws|] eqn:E; [|done].
  by rewrite (pad_loop_fuel_mono _ _ _ _ E Hle).
Qed.

Lemma enforce_word_range_fuel_terminates fuel text :
  36 <= fuel -> is_Some (enforce_word_range_fuel fuel text).
Proof.
  intros Hf. unfold enforce_word_range_fuel.
  destruct (length (split text) <? target_min).
  - destruct (pad_loop_terminates fuel (split text)) as [ws ->]; [|by eexists].
    unfold target_min. lia.
  - destruct (target_max <? length (split text)); by eexists.
Qed.

(** The total function is the result of every run with enough fuel. *)
Lemma enforce_word_range_fuel_eq fuel text r :
  enforce_word_range_fuel fuel text = Some r -> r = enforce_word_range text.
Proof.
  intros H. unfold enforce_word_range.
  destruct (enforce_word_range_fuel_terminates target_min text) as [r' Hr'];
    [unfold target_min; lia|].
  rewrite Hr'. simpl.
  destruct (Nat.le_ge_cases fuel target_min) as [Hle|Hle].
  - rewrite (enforce_word_range_fuel_mono _ _ _ _ H Hle) in Hr'. congruence.
  - rewrite (enforce_word_range_fuel_mono _ _ _ _ Hr' Hle) in H. congruence.
Qed.

Lemma enforce_word_range_unfold text :
  enforce_word_range_fuel target_min text = Some (enforce_word_range text).
Proof.
  destruct (enforce_word_range_fuel_terminates target_min text) as [r Hr];
    [unfold target_min; lia|].
  rewrite Hr. f_equal. by apply enforce_word_range_fuel_eq in Hr.
Qed.

(** Short texts: the padded result has between 1400 and 1438 words. *)
Lemma enforce_word_range_short text :
  compute_word_count text < target_min ->
  target_min <= compute_word_count (enforce_word_range text) < target_min + 39.
Proof.
  rewrite !compute_word_count_split. intros Hn.
  pose proof (enforce_word_range_unfold text) as H.
  unfold enforce_word_range_fuel in H.
  destruct (length (split text) <? target_min) eqn:E;
    [|apply Nat.ltb_ge in E; lia].
  destruct (pad_loop target_min (split text)) as [ws|] eqn:Hp; [|done].
  injection H as <-.
  apply pad_loop_spec in Hp as (Hw & Hmin & Hmax & _); [|apply split_is_word].
  specialize (Hmax Hn).
  rewrite take_ge by (unfold target_max, target_min in *; lia).
  rewrite split_join by done. lia.
Qed.

(** Texts already in range: the words, joined by single spaces. *)
Lemma enforce_word_range_in_range text :
  target_min <= compute_word_count text <= target_max ->
  enforce_word_range text = join space (split text).
Proof.
  rewrite compute_word_count_split. intros [Hlo Hhi].
  pose proof (enforce_word_range_unfold text) as H.
  unfold enforce_word_range_fuel in H.
  destruct (length (split text) <? target_min) eqn:E;
    [apply Nat.ltb_lt in E; lia|].
  destruct (target_max <? length (split text)) eqn:E';
    [apply Nat.ltb_lt in E'; lia|].
  injection H as <-. by rewrite take_ge.
Qed.

(** Long texts: the trimming branch. *)
Lemma enforce_word_range_long text :
  target_max < compute_word_count text ->
  enforce_word_range text = trim_long (split text).
Proof.
  rewrite compute_word_count_split. intros Hn.
  pose proof (enforce_word_range_unfold text) as H.
  unfold enforce_word_range_fuel in H.
  destruct (length (split text) <? target_min) eqn:E;
    [apply Nat.ltb_lt in E; unfold target_min, target_max in *; lia|].
  destruct (target_max <? length (split text)) eqn:E';
    [|apply Nat.ltb_ge in E'; lia].
  by injection H as <-.
Qed.

End Enforce.

(** * Where the trimming branch cuts *)

Section Trim.
Import Py PyFacts.

Lemma rfind_from_cases c s i last :
  rfind_from c s i last = last \/ (i <= rfind_from c s i last)%Z.
Proof.
  revert i last. induction s as [|x s IH]; intros i last; simpl; [by left|].
  destruct (IH (i + 1)%Z (if (x =? c)%N then i else last)) as [E|E].
  - rewrite E. destruct (x =? c)%N; [right; lia|by left].
  - right. lia.
Qed.

(** [rfind] is at least the index of any occurrence. *)
Lemma rfind_from_ge c (s : str) i last k :
  s !! k = Some c -> (i + Z.of_nat k <= rfind_from c s i last)%Z.
Proof.
  revert i last k. induction s as [|x s IH]; intros i last k Hk; [done|].
  destruct k as [|k]; simpl in *.
  - injection Hk as ->. rewrite N.eqb_refl.
    destruct (rfind_from_cases c s (i + 1) i) as [E|E]; lia.
  - specialize (IH (i + 1)%Z (if (x =? c)%N then i else last) k Hk). lia.
Qed.

Lemma rfind_ge c (s : str) k :
  s !! k = Some c -> (Z.of_nat k <= rfind c s)%Z.
Proof. intros H. apply (rfind_from_ge c s 0 (-1) k H). Qed.

(** A character of the [j]-th word is found in the joined text at an index
    of at least [2 * j]: every earlier word has at least one character and
    is followed by a separator. *)
Lemma join_lookup_word (ws : list str) j w c :
  Forall is_word ws -> ws !! j = Some w -> c ∈ w ->
  exists i, 2 * j <= i /\ join space ws !! i = Some c.
Proof.
  intros Hws. revert j. induction Hws as [|w0 ws [Hw0 _] Hws IH]; intros j Hj Hc;
    [done|].
  destruct j as [|j]; simpl in Hj.
  - injection Hj as ->. apply list_elem_of_lookup in Hc as [o Ho].
    exists o. split; [lia|].
    destruct ws; simpl; [done|]. by apply lookup_app_l_Some.
  - destruct (IH j Hj Hc) as (i & Hi & Hlook).
    destruct ws as [|w1 ws]; [done|].
    exists (length w0 + S i). split.
    + destruct w0; [done|]. simpl. lia.
    + change (join space (w0 :: w1 :: ws))
        with (w0 ++ 32%N :: join space (w1 :: ws)).
      unfold str. rewrite lookup_app_r by lia.
      replace (length w0 + S i - length w0) with (S i) by lia. done.
Qed.

(** When a full stop occurs in one of the last 200 words of the 1800-word
    cut, the trimming branch returns the prefix of the cut that ends with
    its last full stop. *)
Lemma trim_long_dot_in_tail (words : list str) j w :
  Forall is_word words ->
  take target_max words !! j = Some w -> 1600 <= j -> dot ∈ w ->
  trim_long words =
  take (Z.to_nat (rfind dot (join space (take target_max words)) + 1))
       (join space (take target_max words)).
Proof.
  intros Hws Hj Hlo Hdot. unfold trim_long.
  destruct (join_lookup_word (take target_max words) j w dot) as (i & Hi & Hlook);
    [by apply Forall_take|done|done|].
  apply rfind_ge in Hlook.
  assert (H0 : rfind dot (join space (take target_max words)) <> (-1)%Z) by lia.
  assert (H3 : (1600 < rfind dot (join space (take target_max words)))%Z) by lia.
  apply Z.eqb_neq in H0. apply Z.ltb_lt in H3.
  change (Z.of_nat target_max - 200)%Z with 1600%Z.
  by rewrite H0, H3.
Qed.

Lemma enforce_word_range_dot_in_tail text j w :
  target_max < compute_word_count text ->
  take target_max (split text) !! j = Some w -> 1600 <= j -> dot ∈ w ->
  enforce_word_range text =
  take (Z.to_nat (rfind dot (join space (take target_max (split text))) + 1))
       (join space (take target_max (split text))).
Proof.
  intros Hn Hj Hlo Hdot. rewrite (enforce_word_range_long text Hn).
  eapply trim_long_dot_in_tail; eauto using split_is_word.
Qed.

End Trim.

(** * The chapter text synthesizer *)

Section Generator.
Import Py PyFacts.

Lemma elaboration_split base step :
  split (base ++ elaboration step) =
  split base ++ split (py "I take one more careful step in this situation:")
  ++ split (step ++ elaboration_tail ++ elaboration_fixed).
Proof.
  unfold elaboration. rewrite <- !app_assoc.
  change (elaboration_head ++ step ++ elaboration_tail ++ elaboration_fixed)
    with (32%N :: (py "I take one more careful step in this situation:"
                   ++ 32%N :: (step ++ elaboration_tail ++ elaboration_fixed))).
  by rewrite !split_app_space.
Qed.

(** One iteration of the elaboration loop adds the nine words before the
    step and the words of the step followed by the two fixed paragraphs. *)
Lemma elaboration_count base step :
  compute_word_count (base ++ elaboration step) =
  compute_word_count base + 9
  + length (split (step ++ elaboration_tail ++ elaboration_fixed)).
Proof.
  rewrite !compute_word_count_split, elaboration_split, !length_app.
  change (length (split (py "I take one more careful step in this situation:")))
    with 9. lia.
Qed.

(** ... which is at least 60 words, whatever the step. *)
Lemma elaboration_count_lower base step :
  compute_word_count base + 60 <= compute_word_count (base ++ elaboration step).
Proof.
  rewrite elaboration_count.
  pose proof (length_split_app_r step (elaboration_tail ++ elaboration_fixed)) as H.
  change (length (split (elaboration_tail ++ elaboration_fixed))) with 51 in H.
  lia.
Qed.

Lemma elaborate_O cycle idx base :
  elaborate 0 cycle idx base =
  if compute_word_count base <? elaboration_target then None else Some base.
Proof. reflexivity. Qed.

Lemma elaborate_S fuel cycle idx base :
  elaborate (S fuel) cycle idx base =
  if compute_word_count base <? elaboration_target then
    step ← cycle !! (idx mod length cycle);
    elaborate fuel cycle (idx + 1) (base ++ elaboration step)
  else Some base.
Proof. reflexivity. Qed.

Lemma cycle_lookup (cycle : list str) idx :
  cycle <> [] -> is_Some (cycle !! (idx mod length cycle)).
Proof.
  intros H. apply lookup_lt_is_Some. apply Nat.mod_upper_bound.
  by destruct cycle.
Qed.

Lemma elaborate_terminates fuel cycle idx base :
  cycle <> [] ->
  elaboration_target <= compute_word_count base + 60 * fuel ->
  is_Some (elaborate fuel cycle idx base).
Proof.
  intros Hc. revert idx base. induction fuel as [|fuel IH]; intros idx base H.
  - rewrite elaborate_O.
    destruct (_ <? _) eqn:E; [|by eexists]. apply Nat.ltb_lt in E. lia.
  - rewrite elaborate_S.
    destruct (_ <? _) eqn:E; [|by eexists].
    destruct (cycle_lookup cycle idx Hc) as [step ->]. simpl.
    apply IH. pose proof (elaboration_count_lower base step). lia.
Qed.

Lemma elaborate_reaches_target fuel cycle idx base r :
  elaborate fuel cycle idx base = Some r ->
  elaboration_target <= compute_word_count r.
Proof.
  revert idx base. induction fuel as [|fuel IH]; intros idx base H.
  - rewrite elaborate_O in H.
    destruct (_ <? _) eqn:E; [done|]. apply Nat.ltb_ge in E. by injection H as <-.
  - rewrite elaborate_S in H.
    destruct (_ <? _) eqn:E.
    + destruct (cycle !! _) as [step|]; [|done]. simpl in H. by eapply IH.
    + apply Nat.ltb_ge in E. by injection H as <-.
Qed.

Lemma elaborate_fuel_mono f1 f2 cycle idx base r :
  elaborate f1 cycle idx base = Some r -> f1 <= f2 ->
  elaborate f2 cycle idx base = Some r.
Proof.
  revert f2 idx base. induction f1 as [|f1 IH]; intros f2 idx base H Hle.
  - rewrite elaborate_O in H. destruct (_ <? _) eqn:E; [done|].
    destruct f2; [rewrite elaborate_O|rewrite elaborate_S]; by rewrite E.
  - destruct f2; [lia|]. rewrite elaborate_S in *.
    destruct (_ <? _); [|done].
    destruct (cycle !! _) as [step|]; [|done]. simpl in *.
    apply IH; [done|lia].
Qed.

Lemma outline_parts_nonempty outline : outline_parts outline <> [].
Proof. unfold outline_parts. by destruct (map _ _). Qed.

Lemma generator_cycle_nonempty (parts : list str) :
  match parts with [] => [py "progress"] | _ => parts end <> [].
Proof. by destruct parts. Qed.

Lemma grounded_chapter_generator_fuel_inv fuel outline idx total pov genre r :
  grounded_chapter_generator_fuel fuel outline idx total pov genre = Some r ->
  exists base,
    elaboration_target <= compute_word_count base
    /\ enforce_word_range_fuel fuel base = Some r.
Proof.
  unfold grounded_chapter_generator_fuel. intros H.
  destruct (elaborate fuel _ _ _) as [b|] eqn:E; [|done].
  exists b. split; [by eapply elaborate_reaches_target|exact H].
Qed.

Lemma grounded_chapter_generator_fuel_mono f1 f2 outline idx total pov genre r :
  grounded_chapter_generator_fuel f1 outline idx total pov genre = Some r ->
  f1 <= f2 ->
  grounded_chapter_generator_fuel f2 outline idx total pov genre = Some r.
Proof.
  unfold grounded_chapter_generator_fuel. intros H Hle.
  destruct (elaborate f1 _ _ _) as [b|] eqn:E; [|done]. simpl in H.
  rewrite (elaborate_fuel_mono _ _ _ _ _ _ E Hle). simpl.
  by eapply enforce_word_range_fuel_mono.
Qed.

Lemma grounded_chapter_generator_fuel_terminates fuel outline idx total pov genre :
  25 <= fuel ->
  is_Some (grounded_chapter_generator_fuel fuel outline idx total pov genre).
Proof.
  intros Hf. unfold grounded_chapter_generator_fuel.
  destruct (elaborate_terminates fuel
              (match outline_parts outline with [] => [py "progress"] | _ => outline_parts outline end)
              0 (join space (chapter_lines (outline_parts outline) idx total pov genre)))
    as [b Hb].
  - apply generator_cycle_nonempty.
  - unfold elaboration_target. lia.
  - rewrite Hb. simpl.
    apply elaborate_reaches_target in Hb.
    rewrite compute_word_count_split in Hb.
    unfold enforce_word_range_fuel.
    destruct (_ <? target_min) eqn:E.
    + apply Nat.ltb_lt in E. unfold elaboration_target, target_min in *. lia.
    + destruct (target_max <? _); by eexists.
Qed.

Lemma grounded_chapter_generator_unfold outline idx total pov genre :
  grounded_chapter_generator_fuel elaboration_target outline idx total pov genre
  = Some (grounded_chapter_generator outline idx total pov genre).
Proof.
  unfold grounded_chapter_generator.
  destruct (grounded_chapter_generator_fuel_terminates elaboration_target
              outline idx total pov genre) as [r ->]; [|done].
  unfold elaboration_target. lia.
Qed.

Lemma grounded_chapter_generator_fuel_eq fuel outline idx total pov genre r :
  grounded_chapter_generator_fuel fuel outline idx total pov genre = Some r ->
  r = grounded_chapter_generator outline idx total pov genre.
Proof.
  intros H.
  pose proof (grounded_chapter_generator_unfold outline idx total pov genre) as H'.
  destruct (Nat.le_ge_cases fuel elaboration_target) as [Hle|Hle].
  - rewrite (grounded_chapter_generator_fuel_mono _ _ _ _ _ _ _ _ H Hle) in H'.
    congruence.
  - rewrite (grounded_chapter_generator_fuel_mono _ _ _ _ _ _ _ _ H' Hle) in H.
    congruence.
Qed.

End Generator.

(** * The store operations *)

Section Store.
Import Py PyFacts.

Lemma bind_inv_Ok {A B} (m : M A) (k : A -> M B) w b w' :
  bind m k w = (Ok b, w') ->
  exists a w1, m w = (Ok a, w1) /\ k a w1 = (Ok b, w').
Proof.
  unfold bind. destruct (m w) as [[a|e] w1]; [eauto|discriminate].
Qed.

Lemma bind_run_Ok {A B} (m : M A) (k : A -> M B) w a w1 :
  m w = (Ok a, w1) -> bind m k w = k a w1.
Proof. unfold bind. by intros ->. Qed.

Lemma stored_project_inv w project_id doc :
  stored_project w project_id = Some doc ->
  exists coll oid,
    db w = Some coll /\ parse_oid project_id = Some oid /\ coll !! oid = Some doc.
Proof.
  unfold stored_project. intros H.
  destruct (db w) as [coll|]; [|done]. simpl in H.
  destruct (parse_oid project_id) as [oid|]; [|done]. simpl in H. eauto.
Qed.

Lemma find_project_stored w project_id doc :
  stored_project w project_id = Some doc ->
  find_project project_id w = (Ok doc, w).
Proof.
  intros (coll & oid & Hdb & Hoid & Hdoc)%stored_project_inv.
  unfold find_project, bind, try_except, collection, ObjectId, find_one, ret.
  by rewrite Hdb, Hoid, Hdoc.
Qed.

Lemma find_project_inv w project_id doc w' :
  find_project project_id w = (Ok doc, w') ->
  w' = w /\ stored_project w project_id = Some doc.
Proof.
  unfold find_project, stored_project, bind, try_except, collection, ObjectId,
    find_one, ret, raise.
  destruct (db w) as [coll|]; [|done].
  destruct (parse_oid project_id) as [oid|]; [|done]. simpl.
  destruct (coll !! oid) as [d|]; [|done].
  by intros [= -> ->].
Qed.

Lemma stored_project_tick w project_id :
  stored_project (tick w) project_id = stored_project w project_id.
Proof. reflexivity. Qed.

(** The write-back on an existing project: the document gets the new
    chapter list and the current clock reading as [updated_at]. *)
Lemma store_chapters_stored w project_id chapters doc :
  stored_project w project_id = Some doc ->
  exists w',
    store_chapters project_id chapters w = (Ok tt, w')
    /\ stored_project w' project_id
       = Some (set_chapters chapters (clock w (ticks w)) doc)
    /\ clock w' = clock w /\ ticks w' = S (ticks w).
Proof.
  intros (coll & oid & Hdb & Hoid & Hdoc)%stored_project_inv.
  eexists. split.
  - unfold store_chapters, bind, collection, ObjectId, ret, now, update_one_set.
    rewrite Hdb, Hoid. reflexivity.
  - unfold stored_project. simpl. rewrite Hdb, Hoid. simpl.
    by rewrite lookup_alter_eq, Hdoc.
Qed.

Lemma store_chapters_inv w project_id chapters w' :
  store_chapters project_id chapters w = (Ok tt, w') ->
  forall doc, stored_project w project_id = Some doc ->
    stored_project w' project_id
    = Some (set_chapters chapters (clock w (ticks w)) doc).
Proof.
  intros H doc Hdoc.
  destruct (store_chapters_stored w project_id chapters doc Hdoc)
    as (w1 & Hrun & Hst & _).
  rewrite Hrun in H. by injection H as <-.
Qed.

Lemma Chapter_new_inv number title text word_count pov w c w' :
  Chapter_new number title text word_count pov w = (Ok c, w') ->
  w' = w
  /\ c = {| ch_number := number; ch_title := title; ch_text := text;
            ch_word_count := word_count; ch_pov := pov;
            ch_created_at := None; ch_updated_at := None |}.
Proof.
  unfold Chapter_new. destruct (Chapter_validate _); [|done].
  by intros [= <- <-].
Qed.

Lemma now_inv w t w' :
  now w = (Ok t, w') -> t = clock w (ticks w) /\ w' = tick w.
Proof. by intros [= <- <-]. Qed.

Lemma existing_index_inv chapters ch_num w i w' :
  existing_index chapters ch_num w = (Ok i, w') ->
  w' = w /\ chapters = [] /\ i = None.
Proof. destruct chapters; [by intros [= <- <-]|done]. Qed.

Lemma Project_of_doc_inv doc w project w' :
  Project_of_doc doc w = (Ok project, w') ->
  w' = w /\ project = doc /\ Project_validate doc = true.
Proof.
  unfold Project_of_doc. destruct (Project_validate doc); [|done].
  by intros [= <- <-].
Qed.

End Store.

(** One step of a successful run: the first action of [H] succeeded. *)
Ltac bind_ok H a w Ha := apply bind_inv_Ok in H as (a & w & Ha & H).

Section Handlers.
Import Py PyFacts.

(** What a successful [generate_chapter] has done. *)
Lemma generate_chapter_inv project_id req w c w' :
  generate_chapter project_id req w = (Ok c, w') ->
  exists doc,
    stored_project w project_id = Some doc
    /\ Project_validate doc = true
    /\ (1 <= req_chapter_number req <= p_chapter_count doc)%Z
    /\ p_chapters doc = []
    /\ c = set_timestamps
             {| ch_number := req_chapter_number req;
                ch_title := chapter_title (req_chapter_number req);
                ch_text := apply_instructions (req_user_instructions req)
                             (chapter_text doc (req_chapter_number req));
                ch_word_count :=
                  Z.of_nat (compute_word_count
                              (apply_instructions (req_user_instructions req)
                                 (chapter_text doc (req_chapter_number req))));
                ch_pov := resolve_chapter_pov (p_pov_mode doc) (req_chapter_number req);
                ch_created_at := None; ch_updated_at := None |}
             (clock w (ticks w)) (clock w (S (ticks w)))
    /\ stored_project w' project_id
       = Some (set_chapters [c] (clock w (S (S (ticks w)))) doc).
Proof.
  unfold generate_chapter. intros H.
  bind_ok H doc w1 Hfind.
  apply find_project_inv in Hfind as [-> Hdoc].
  bind_ok H project w1 Hp.
  apply Project_of_doc_inv in Hp as (-> & -> & Hval).
  cbv zeta in H.
  destruct (_ || _) eqn:Hrange; [discriminate H|].
  apply orb_false_iff in Hrange as [H1 H2].
  apply Z.ltb_ge in H1, H2.
  bind_ok H chapter w1 Hch.
  apply Chapter_new_inv in Hch as [-> ->].
  bind_ok H i w1 Hi.
  apply existing_index_inv in Hi as (-> & Hnil & ->).
  bind_ok H t1 w1 Ht1.
  apply now_inv in Ht1 as [-> ->].
  bind_ok H t2 w2 Ht2.
  apply now_inv in Ht2 as [-> ->].
  apply bind_inv_Ok in H as ([] & w3 & Hst & H).
  injection H as <- <-.
  exists doc. split_and!; try done.
  rewrite Hnil in Hst. simpl app in Hst.
  by apply (store_chapters_inv _ _ _ _ Hst doc).
Qed.

(** What a run of the loop of [generate_all] has done. *)
Lemma generate_all_loop_inv project nums acc w chapters w' :
  generate_all_loop project nums acc w = (Ok chapters, w') ->
  db w' = db w /\ clock w' = clock w /\ ticks w' = ticks w + 2 * length nums
  /\ exists new,
       chapters = acc ++ new
       /\ map ch_number new = nums
       /\ Forall (fun c =>
            ch_text c = chapter_text project (ch_number c)
            /\ ch_title c = chapter_title (ch_number c)
            /\ ch_pov c = resolve_chapter_pov (p_pov_mode project) (ch_number c)
            /\ word_count_consistent c) new.
Proof.
  revert acc w. induction nums as [|n nums IH]; intros acc w H.
  - injection H as <- <-. split_and!; [done|done|simpl; lia|].
    exists []. by rewrite app_nil_r.
  - change (generate_all_loop project (n :: nums) acc)
      with (chapter <- Chapter_new n (chapter_title n) (chapter_text project n)
                         (Z.of_nat (compute_word_count (chapter_text project n)))
                         (resolve_chapter_pov (p_pov_mode project) n) ;;
            created <- now ;;
            updated <- now ;;
            generate_all_loop project nums
              (acc ++ [set_timestamps chapter created updated])) in H.
    bind_ok H chapter w1 Hch.
    apply Chapter_new_inv in Hch as [-> ->].
    bind_ok H t1 w1 Ht1.
    apply now_inv in Ht1 as [-> ->].
    bind_ok H t2 w2 Ht2.
    apply now_inv in Ht2 as [-> ->].
    apply IH in H as (Hdb & Hclock & Hticks & new & -> & Hnums & Hnew).
    split_and!; [done|done| |].
    { rewrite Hticks. cbn [tick ticks length]. lia. }
    eexists (_ :: new). split; [by rewrite <- app_assoc|].
    split; [by rewrite <- Hnums|].
    constructor; [|exact Hnew].
    unfold word_count_consistent, set_timestamps.
    cbn [ch_number ch_title ch_text ch_word_count ch_pov].
    split_and!; reflexivity.
Qed.

(** What a successful [generate_all] has done: the stored chapter list is
    replaced by freshly generated chapters numbered 1 to [chapter_count]. *)
Lemma generate_all_inv project_id w n w' :
  generate_all project_id w = (Ok n, w') ->
  exists doc chapters t,
    stored_project w project_id = Some doc
    /\ stored_project w' project_id = Some (set_chapters chapters t doc)
    /\ n = length chapters
    /\ map ch_number chapters = seqZ 1 (p_chapter_count doc)
    /\ Forall (fun c =>
         ch_text c = chapter_text doc (ch_number c)
         /\ ch_title c = chapter_title (ch_number c)
         /\ ch_pov c = resolve_chapter_pov (p_pov_mode doc) (ch_number c)
         /\ word_count_consistent c) chapters.
Proof.
  unfold generate_all. intros H.
  bind_ok H doc w1 Hfind.
  apply find_project_inv in Hfind as [-> Hdoc].
  bind_ok H project w1 Hp.
  apply Project_of_doc_inv in Hp as (-> & -> & Hval).
  bind_ok H chapters w1 Hloop.
  apply generate_all_loop_inv in Hloop
    as (Hdb & Hclock & Hticks & new & -> & Hnums & Hnew).
  apply bind_inv_Ok in H as ([] & w2 & Hst & H).
  injection H as <- <-.
  exists doc, new, (clock w1 (ticks w1)). split_and!; try done.
  apply (store_chapters_inv _ _ _ _ Hst doc).
  unfold stored_project in *. by rewrite Hdb.
Qed.

(** [edit_chapter] on an existing chapter of an existing project
    succeeds, and what it has done. *)
Lemma edit_chapter_run project_id chapter_number body w doc idx c :
  stored_project w project_id = Some doc ->
  list_find (fun c => ch_number c = chapter_number) (p_chapters doc) = Some (idx, c) ->
  let c' := set_updated_at (edit_fields body c) (clock w (ticks w)) in
  exists w',
    edit_chapter project_id chapter_number body w = (Ok c', w')
    /\ stored_project w' project_id
       = Some (set_chapters (<[idx := c']> (p_chapters doc))
                 (clock w (S (ticks w))) doc).
Proof.
  intros Hdoc Hfind c'.
  destruct (store_chapters_stored (tick w) project_id
              (<[idx := c']> (p_chapters doc)) doc) as (w' & Hrun & Hst & _);
    [done|].
  exists w'. split; [|done].
  unfold edit_chapter.
  rewrite (bind_run_Ok _ _ _ _ _ (find_project_stored _ _ _ Hdoc)).
  rewrite Hfind. unfold bind at 1. unfold now.
  fold c'. unfold bind. by rewrite Hrun.
Qed.

End Handlers.

Section Success.
Import Py PyFacts.

Lemma join_nonempty (ws : list str) :
  ws <> [] -> Forall is_word ws -> join space ws <> [].
Proof.
  intros Hne Hws. destruct Hws as [|w ws [Hw _] _]; [done|].
  destruct w as [|c w]; [done|]. by destruct ws.
Qed.

Lemma trim_long_nonempty (words : list str) :
  Forall is_word words -> words <> [] -> trim_long words <> [].
Proof.
  intros Hws Hne. unfold trim_long.
  assert (Ht : join space (take target_max words) <> []).
  { apply join_nonempty; [by destruct words|by apply Forall_take]. }
  destruct (_ && _) eqn:Hc; [|done].
  apply andb_true_iff in Hc as [_ Hc]. apply Z.ltb_lt in Hc.
  destruct (join space (take target_max words)) as [|x s]; [done|].
  destruct (Z.to_nat (rfind dot (x :: s) + 1)) eqn:E; [|done].
  unfold target_max in Hc. lia.
Qed.

(** The result of [enforce_word_range] is never the empty string. *)
Lemma enforce_word_range_nonempty text : enforce_word_range text <> [].
Proof.
  pose proof (enforce_word_range_unfold text) as H.
  unfold enforce_word_range_fuel in H.
  destruct (length (split text) <? target_min) eqn:E.
  - destruct (pad_loop target_min (split text)) as [ws|] eqn:Hp; [|done].
    injection H as <-.
    apply pad_loop_spec in Hp as (Hw & Hmin & _); [|apply split_is_word].
    apply join_nonempty; [|by apply Forall_take].
    destruct ws; [simpl in Hmin; unfold target_min in Hmin; lia|done].
  - apply Nat.ltb_ge in E.
    assert (Hne : split text <> []).
    { destruct (split text); [simpl in E; unfold target_min in E; lia|done]. }
    destruct (target_max <? length (split text)); injection H as <-.
    + apply trim_long_nonempty; [apply split_is_word|done].
    + apply join_nonempty; [by destruct (split text)|].
      apply Forall_take, split_is_word.
Qed.

Lemma grounded_chapter_generator_nonempty outline idx total pov genre :
  grounded_chapter_generator outline idx total pov genre <> [].
Proof.
  destruct (grounded_chapter_generator_fuel_inv _ _ _ _ _ _ _
              (grounded_chapter_generator_unfold outline idx total pov genre))
    as (b & _ & H).
  apply enforce_word_range_fuel_eq in H. rewrite H.
  apply enforce_word_range_nonempty.
Qed.

Lemma resolve_chapter_pov_literal pov_mode n :
  literal [py "female"; py "male"] (resolve_chapter_pov pov_mode n) = true.
Proof.
  unfold resolve_chapter_pov.
  destruct (eqb pov_mode _); [done|].
  destruct (eqb pov_mode _); [done|].
  by destruct (_ =? _)%Z.
Qed.

(** A chapter built from a number in range, a non-empty title and text and
    a resolved point of view passes the validation of [Chapter]. *)
Lemma Chapter_new_valid n title text k pov_mode w :
  (1 <= n)%Z -> title <> [] -> text <> [] ->
  Chapter_new n title text (Z.of_nat k) (resolve_chapter_pov pov_mode n) w
  = (Ok {| ch_number := n; ch_title := title; ch_text := text;
           ch_word_count := Z.of_nat k;
           ch_pov := resolve_chapter_pov pov_mode n;
           ch_created_at := None; ch_updated_at := None |}, w).
Proof.
  intros Hn Htitle Htext. unfold Chapter_new.
  assert (Chapter_validate
            {| ch_number := n; ch_title := title; ch_text := text;
               ch_word_count := Z.of_nat k;
               ch_pov := resolve_chapter_pov pov_mode n;
               ch_created_at := None; ch_updated_at := None |} = true) as ->;
    [|reflexivity].
  unfold Chapter_validate.
  cbn [ch_number ch_title ch_text ch_word_count ch_pov].
  rewrite resolve_chapter_pov_literal.
  destruct title as [|a title]; [done|]. destruct text as [|x s]; [done|].
  repeat (apply andb_true_iff; split); try done.
  - by apply Z.leb_le.
  - apply Z.leb_le. lia.
Qed.

Lemma chapter_text_nonempty project n : chapter_text project n <> [].
Proof. unfold chapter_text. apply grounded_chapter_generator_nonempty. Qed.

Lemma chapter_title_nonempty n : chapter_title n <> [].
Proof. done. Qed.

Lemma apply_instructions_nonempty instructions text :
  text <> [] -> apply_instructions instructions text <> [].
Proof.
  intros H. unfold apply_instructions.
  destruct instructions as [[|c i]|]; try done.
  apply enforce_word_range_nonempty.
Qed.

Lemma generate_chapter_validated project_id req w doc :
  stored_project w project_id = Some doc ->
  Project_validate doc = true ->
  generate_chapter project_id req w =
  (if (req_chapter_number req <? 1)%Z
      || (p_chapter_count doc <? req_chapter_number req)%Z
   then raise InvalidRange
   else
     chapter <- Chapter_new (req_chapter_number req)
                  (chapter_title (req_chapter_number req))
                  (apply_instructions (req_user_instructions req)
                     (chapter_text doc (req_chapter_number req)))
                  (Z.of_nat (compute_word_count
                     (apply_instructions (req_user_instructions req)
                        (chapter_text doc (req_chapter_number req)))))
                  (resolve_chapter_pov (p_pov_mode doc) (req_chapter_number req)) ;;
     existing_idx <- existing_index (p_chapters doc) (req_chapter_number req) ;;
     created <- now ;;
     updated <- now ;;
     (store_chapters project_id
        match existing_idx with
        | None => p_chapters doc ++ [set_timestamps chapter created updated]
        | Some i => <[i := set_timestamps chapter created updated]> (p_chapters doc)
        end ;;;
      ret (set_timestamps chapter created updated))) w.
Proof.
  intros Hdoc Hval. unfold generate_chapter.
  rewrite (bind_run_Ok _ _ _ _ _ (find_project_stored _ _ _ Hdoc)).
  unfold Project_of_doc. rewrite Hval. reflexivity.
Qed.

Lemma generate_chapter_out_of_range project_id req w doc :
  stored_project w project_id = Some doc ->
  Project_validate doc = true ->
  (req_chapter_number req < 1 \/ p_chapter_count doc < req_chapter_number req)%Z ->
  generate_chapter project_id req w = (Raise InvalidRange, w).
Proof.
  intros Hdoc Hval Hrange.
  rewrite (generate_chapter_validated _ _ _ _ Hdoc Hval).
  rewrite <- !Z.ltb_lt in Hrange. apply orb_true_iff in Hrange.
  by rewrite Hrange.
Qed.

Lemma generate_chapter_in_range project_id req w doc :
  stored_project w project_id = Some doc ->
  Project_validate doc = true ->
  (1 <= req_chapter_number req <= p_chapter_count doc)%Z ->
  fst (generate_chapter project_id req w) <> Raise InvalidRange.
Proof.
  intros Hdoc Hval [H1 H2].
  rewrite (generate_chapter_validated _ _ _ _ Hdoc Hval).
  pose proof (stored_project_inv _ _ _ Hdoc) as (coll & oid & Hdb & Hoid & _).
  apply Z.ltb_ge in H1, H2. rewrite H1, H2. cbn [orb].
  unfold bind, Chapter_new, existing_index, now, store_chapters, collection,
    ObjectId, update_one_set, ret, raise, bind, tick.
  destruct (Chapter_validate _); [|by cbn [fst]].
  destruct (p_chapters doc); [|by cbn [fst]].
  cbn [db]. rewrite Hdb, Hoid. by cbn [fst].
Qed.

(** On a project that already has chapters, a request in range gets past
    validation and the range check and then fails in the search for the
    chapter to replace; nothing is written. *)
Lemma generate_chapter_existing_chapters project_id req w doc :
  stored_project w project_id = Some doc ->
  Project_validate doc = true ->
  (1 <= req_chapter_number req <= p_chapter_count doc)%Z ->
  p_chapters doc <> [] ->
  generate_chapter project_id req w = (Raise AttributeError, w).
Proof.
  intros Hdoc Hval [H1 H2] Hne.
  rewrite (generate_chapter_validated _ _ _ _ Hdoc Hval).
  pose proof H1 as H1'. apply Z.ltb_ge in H1', H2. rewrite H1', H2. cbn [orb].
  rewrite (bind_run_Ok _ _ _ _ _
             (Chapter_new_valid _ _ _ _ _ w H1 (chapter_title_nonempty _)
                (apply_instructions_nonempty _ _ (chapter_text_nonempty doc _)))).
  unfold bind, existing_index, raise. by destruct (p_chapters doc).
Qed.

(** On a project without chapters, a request in range succeeds. *)
Lemma generate_chapter_first project_id req w doc :
  stored_project w project_id = Some doc ->
  Project_validate doc = true ->
  (1 <= req_chapter_number req <= p_chapter_count doc)%Z ->
  p_chapters doc = [] ->
  exists c w', generate_chapter project_id req w = (Ok c, w').
Proof.
  intros Hdoc Hval [H1 H2] Hnil.
  rewrite (generate_chapter_validated _ _ _ _ Hdoc Hval).
  pose proof H1 as H1'. apply Z.ltb_ge in H1', H2. rewrite H1', H2. cbn [orb].
  rewrite (bind_run_Ok _ _ _ _ _
             (Chapter_new_valid _ _ _ _ _ w H1 (chapter_title_nonempty _)
                (apply_instructions_nonempty _ _ (chapter_text_nonempty doc _)))).
  rewrite Hnil. unfold bind at 1. unfold existing_index, ret at 1.
  unfold bind at 1. unfold now at 1. unfold bind at 1. unfold now at 1.
  match goal with
  | |- exists c w', bind (store_chapters ?pid ?chs) _ ?w0 = _ =>
      destruct (store_chapters_stored w0 pid chs doc) as (w' & Hst & _);
        [exact Hdoc|];
      rewrite (bind_run_Ok _ _ _ _ _ Hst)
  end.
  by eexists _, _.
Qed.

Lemma generate_all_loop_run project nums acc w :
  Forall (fun n => (1 <= n)%Z) nums ->
  exists chapters w', generate_all_loop project nums acc w = (Ok chapters, w').
Proof.
  intros Hnums. revert acc w.
  induction Hnums as [|n nums Hn _ IH]; intros acc w.
  - by exists acc, w.
  - pose proof (Chapter_new_valid n (chapter_title n) (chapter_text project n)
                  (compute_word_count (chapter_text project n))
                  (p_pov_mode project) w Hn (chapter_title_nonempty n)
                  (chapter_text_nonempty project n)) as Hc.
    set (c := {| ch_number := n; ch_title := chapter_title n;
                 ch_text := chapter_text project n;
                 ch_word_count :=
                   Z.of_nat (compute_word_count (chapter_text project n));
                 ch_pov := resolve_chapter_pov (p_pov_mode project) n;
                 ch_created_at := None; ch_updated_at := None |}) in Hc.
    destruct (IH (acc ++ [set_timestamps c (clock w (ticks w))
                            (clock w (S (ticks w)))]) (tick (tick w)))
      as (chapters & w' & Hrun).
    exists chapters, w'. rewrite <- Hrun.
    change (generate_all_loop project (n :: nums) acc)
      with (chapter <- Chapter_new n (chapter_title n) (chapter_text project n)
                         (Z.of_nat (compute_word_count (chapter_text project n)))
                         (resolve_chapter_pov (p_pov_mode project) n) ;;
            created <- now ;;
            updated <- now ;;
            generate_all_loop project nums
              (acc ++ [set_timestamps chapter created updated])).
    by rewrite (bind_run_Ok _ _ _ _ _ Hc).
Qed.

(** [generate_all] succeeds on every stored project that satisfies the
    schema, and produces [chapter_count] chapters. *)
Lemma generate_all_succeeds project_id w doc :
  stored_project w project_id = Some doc ->
  Project_validate doc = true ->
  exists w', generate_all project_id w = (Ok (Z.to_nat (p_chapter_count doc)), w').
Proof.
  intros Hdoc Hval.
  destruct (generate_all_loop_run doc (seqZ 1 (p_chapter_count doc)) [] w)
    as (chapters & w1 & Hloop).
  { apply Forall_seqZ. intros; lia. }
  pose proof Hloop as Hinv.
  apply generate_all_loop_inv in Hinv as (Hdb & _ & _ & new & Hnew & Hnums & _).
  destruct (store_chapters_stored w1 project_id chapters doc) as (w' & Hst & _).
  { unfold stored_project in *. by rewrite Hdb. }
  exists w'. unfold generate_all.
  rewrite (bind_run_Ok _ _ _ _ _ (find_project_stored _ _ _ Hdoc)).
  unfold Project_of_doc. rewrite Hval.
  unfold bind at 1. unfold ret at 1.
  rewrite (bind_run_Ok _ _ _ _ _ Hloop).
  rewrite (bind_run_Ok _ _ _ _ _ Hst).
  unfold ret. do 2 f_equal.
  simpl in Hnew. subst new.
  by rewrite <- (length_map ch_number), Hnums, length_seqZ.
Qed.

End Success.

(** * Claims on the point-of-view resolver and on range enforcement *)

Section RangeClaims.
Import Py PyFacts.

(** C7. For every positive chapter number [n], [resolve_chapter_pov]
    returns "female" under mode female, "male" under mode male, and under
    mode dual "female" for odd [n] and "male" for even [n]; whatever the
    mode, the result is never "dual". *)
Theorem resolve_chapter_pov_spec (n : Z) :
  (0 < n)%Z ->
  resolve_chapter_pov (py "female") n = py "female"
  /\ resolve_chapter_pov (py "male") n = py "male"
  /\ resolve_chapter_pov (py "dual") n = (if Z.odd n then py "female" else py "male")
  /\ forall pov_mode, resolve_chapter_pov pov_mode n <> py "dual".
Proof.
  intros _. split_and!; try reflexivity.
  - unfold resolve_chapter_pov.
    change (eqb (py "dual") (py "female")) with false.
    change (eqb (py "dual") (py "male")) with false.
    cbv iota. rewrite Zmod_odd. by destruct (Z.odd n).
  - intros pov_mode. unfold resolve_chapter_pov.
    destruct (eqb pov_mode _); [done|].
    destruct (eqb pov_mode _); [done|].
    by destruct (_ =? _)%Z.
Qed.

Lemma resolve_chapter_pov_witness :
  (0 < 3)%Z
  /\ resolve_chapter_pov (py "dual") 3 = py "female"
  /\ resolve_chapter_pov (py "dual") 4 = py "male".
Proof.
  split; [lia|]. split.
  - exact (proj1 (proj2 (proj2 (resolve_chapter_pov_spec 3 ltac:(lia))))).
  - exact (proj1 (proj2 (proj2 (resolve_chapter_pov_spec 4 ltac:(lia))))).
Defined.

(** C1, at the failing input. [long_input] has 1801 words, which is
    outside [1400, 1800], and the result of [enforce_word_range] on it has
    802 words, which is outside [1400, 1800] as well. *)
Theorem enforce_word_range_long_input_count :
  compute_word_count long_input = 1801
  /\ compute_word_count (enforce_word_range long_input) = 802.
Proof. split; vm_compute; reflexivity. Qed.

(** C2, at the failing input. [long_input] has more than 1800 words and no
    full stop within the last 200 words of its first 1800, yet the result
    of [enforce_word_range] is not the 1800-word cut: it is the cut's
    prefix of 1603 characters, which ends at the full stop of index 1602. *)
Theorem enforce_word_range_long_input_cut :
  let trimmed := join space (take target_max (split long_input)) in
  target_max < compute_word_count long_input
  /\ Forall (fun w => dot ∉ w) (drop 1600 (take target_max (split long_input)))
  /\ rfind dot trimmed = 1602%Z
  /\ enforce_word_range long_input <> trimmed
  /\ enforce_word_range long_input = take 1603 trimmed.
Proof. cbv zeta. split_and!; compute_done. Qed.

(** C3 as stated fails: [spaced_input] has 1400 words and is not returned
    unchanged, its leading space being dropped. *)
Lemma enforce_word_range_not_identity :
  ~ (forall text,
       target_min <= compute_word_count text <= target_max ->
       enforce_word_range text = text).
Proof.
  intros H.
  assert (Hne : enforce_word_range spaced_input <> spaced_input) by compute_done.
  apply Hne, H. compute_done.
Qed.

(** C3, amended. For every text whose word count is in [1400, 1800],
    [enforce_word_range] returns the words of the text joined by single
    spaces: the sequence of words and their count are those of the input,
    and the text itself is returned unchanged exactly when its words are
    already separated by single spaces with nothing before or after. *)
Theorem enforce_word_range_in_range_normalises (text : pystr) :
  target_min <= compute_word_count text <= target_max ->
  enforce_word_range text = join space (split text)
  /\ split (enforce_word_range text) = split text
  /\ compute_word_count (enforce_word_range text) = compute_word_count text
  /\ (enforce_word_range text = text <-> text = join space (split text)).
Proof.
  intros H. pose proof (enforce_word_range_in_range text H) as E.
  assert (Hs : split (enforce_word_range text) = split text).
  { rewrite E. apply split_join, split_is_word. }
  split_and!; [done|done| |].
  - by rewrite !compute_word_count_split, Hs.
  - rewrite E. split; congruence.
Qed.

Lemma enforce_word_range_in_range_normalises_witness :
  target_min <= compute_word_count spaced_input <= target_max
  /\ enforce_word_range spaced_input = join space (split spaced_input).
Proof.
  assert (H : target_min <= compute_word_count spaced_input <= target_max)
    by compute_done.
  split; [exact H|].
  exact (proj1 (enforce_word_range_in_range_normalises spaced_input H)).
Defined.

End RangeClaims.

(** * Claims on determinism and termination *)

Section GeneratorClaims.
Import Py PyFacts.

(** C4. The synthesizer is deterministic: any two runs on the same
    outline, chapter index, chapter total, point of view and genre that
    produce a text produce the same text (a run's only other parameter, the
    bound on loop iterations, has no influence on the result). *)
Theorem grounded_chapter_generator_deterministic
    (f1 f2 : nat) (outline : pystr) (idx total : Z) (pov genre r1 r2 : pystr) :
  grounded_chapter_generator_fuel f1 outline idx total pov genre = Some r1 ->
  grounded_chapter_generator_fuel f2 outline idx total pov genre = Some r2 ->
  r1 = r2.
Proof.
  intros H1 H2.
  apply grounded_chapter_generator_fuel_eq in H1, H2. congruence.
Qed.

Lemma grounded_chapter_generator_deterministic_witness :
  let run fuel :=
    grounded_chapter_generator_fuel fuel sample_outline 1 3 (py "female") (py "general") in
  let r1 := default [] (run 25) in
  let r2 := grounded_chapter_generator sample_outline 1 3 (py "female") (py "general") in
  run 25 = Some r1 /\ run 40 = Some r2 /\ r1 = r2.
Proof.
  intros run r1 r2.
  assert (H1 : run 25 = Some r1) by (vm_compute; reflexivity).
  assert (H2 : run 40 = Some r2) by (vm_compute; reflexivity).
  split_and!; [exact H1|exact H2|].
  exact (grounded_chapter_generator_deterministic 25 40 sample_outline 1 3
           (py "female") (py "general") r1 r2 H1 H2).
Defined.

Lemma pad_loop_reaches_target fuel (words words' : list str) :
  pad_loop fuel words = Some words' -> target_min <= length words'.
Proof.
  revert words. induction fuel as [|fuel IH]; intros words H;
    [rewrite pad_loop_O in H|rewrite pad_loop_S in H];
    (destruct (_ <? _) eqn:E; [|apply Nat.ltb_ge in E; by injection H as <-]).
  - done.
  - by eapply IH.
Qed.

(** C10 as stated fails in its account of the elaboration loop: on
    [uneven_outline] the first two iterations both run and add 60 and 61
    words, so the amount added per iteration is not fixed. *)
Lemma elaboration_increment_varies :
  let parts := outline_parts uneven_outline in
  let base0 := join space (chapter_lines parts 1 3 (py "female") (py "general")) in
  let base1 := base0 ++ elaboration (py "a") in
  let base2 := base1 ++ elaboration (py "b c") in
  parts = [py "a"; py "b c"]
  /\ compute_word_count base0 < elaboration_target
  /\ compute_word_count base1 < elaboration_target
  /\ elaborate 25 parts 0 base0 = elaborate 23 parts 2 base2
  /\ is_Some (elaborate 25 parts 0 base0)
  /\ compute_word_count base1 = compute_word_count base0 + 60
  /\ compute_word_count base2 = compute_word_count base1 + 61.
Proof.
  cbv zeta. split_and!.
  - vm_compute; reflexivity.
  - compute_done.
  - compute_done.
  - vm_compute; reflexivity.
  - vm_compute. by eexists.
  - vm_compute; reflexivity.
  - vm_compute; reflexivity.
Qed.

(** C10, amended. Both functions terminate for every input. Each
    iteration of the padding loop adds exactly 39 words, so the loop
    reaches 1400 words within any number of iterations that covers the
    missing words; each iteration of the elaboration loop adds at least 60
    words, the exact amount depending on the outline segment it inserts,
    so the loop reaches 1450 words likewise. 36 iterations are enough
    for [enforce_word_range] on any text and 25 for
    [grounded_chapter_generator] on any outline. *)
Theorem loops_terminate :
  (forall words : list pystr,
     length (words ++ split filler) = length words + 39)
  /\ (forall base step,
        compute_word_count base + 60 <= compute_word_count (base ++ elaboration step))
  /\ (forall fuel (words : list pystr),
        target_min <= length words + 39 * fuel ->
        exists words', pad_loop fuel words = Some words'
                       /\ target_min <= length words')
  /\ (forall fuel cycle idx base,
        cycle <> [] ->
        elaboration_target <= compute_word_count base + 60 * fuel ->
        exists base', elaborate fuel cycle idx base = Some base'
                      /\ elaboration_target <= compute_word_count base')
  /\ (forall fuel text,
        36 <= fuel -> is_Some (enforce_word_range_fuel fuel text))
  /\ (forall fuel outline idx total pov genre,
        25 <= fuel ->
        is_Some (grounded_chapter_generator_fuel fuel outline idx total pov genre)).
Proof.
  split_and!.
  - apply pad_step_length.
  - apply elaboration_count_lower.
  - intros fuel words H.
    destruct (pad_loop_terminates fuel words H) as [ws Hws].
    exists ws. split; [done|]. by eapply pad_loop_reaches_target.
  - intros fuel cycle idx base Hc H.
    destruct (elaborate_terminates fuel cycle idx base Hc H) as [b Hb].
    exists b. split; [done|]. by eapply elaborate_reaches_target.
  - intros fuel text. apply enforce_word_range_fuel_terminates.
  - intros fuel outline idx total pov genre.
    apply grounded_chapter_generator_fuel_terminates.
Qed.

Lemma loops_terminate_witness :
  36 <= 36 /\ 25 <= 25
  /\ is_Some (enforce_word_range_fuel 36 (py "a b"))
  /\ is_Some (grounded_chapter_generator_fuel 25 uneven_outline 1 3
                (py "female") (py "general")).
Proof.
  split; [lia|]. split; [lia|]. split.
  - exact (proj1 (proj2 (proj2 (proj2 (proj2 loops_terminate))))
             36 (py "a b") ltac:(lia)).
  - exact (proj2 (proj2 (proj2 (proj2 (proj2 loops_terminate))))
             25 uneven_outline 1%Z 3%Z (py "female") (py "general") ltac:(lia)).
Defined.

End GeneratorClaims.

(** * Claims on the store operations *)

Section StoreClaims.
Import Py PyFacts.

Lemma edit_chapter_inv project_id chapter_number body w c' w' :
  edit_chapter project_id chapter_number body w = (Ok c', w') ->
  exists doc idx c,
    stored_project w project_id = Some doc
    /\ list_find (fun c => ch_number c = chapter_number) (p_chapters doc)
       = Some (idx, c)
    /\ c' = set_updated_at (edit_fields body c) (clock w (ticks w))
    /\ stored_project w' project_id
       = Some (set_chapters (<[idx := c']> (p_chapters doc))
                 (clock w (S (ticks w))) doc).
Proof.
  intros H. pose proof H as H0. unfold edit_chapter in H0.
  apply bind_inv_Ok in H0 as (doc & w1 & Hfind & H0).
  apply find_project_inv in Hfind as [-> Hdoc].
  destruct (list_find _ (p_chapters doc)) as [[idx c]|] eqn:Hidx; [|done].
  clear H0.
  destruct (edit_chapter_run project_id chapter_number body w doc idx c Hdoc Hidx)
    as (w2 & Hrun & Hst).
  rewrite Hrun in H. injection H as <- <-.
  by exists doc, idx, c.
Qed.

Lemma edit_fields_text_consistent body t c :
  body_text body = Some t -> word_count_consistent (edit_fields body c).
Proof. unfold edit_fields. by intros ->. Qed.

(** C5, at the failing input. On a stored project with three chapters to
    produce, the outline [run_on_outline] and one old chapter numbered 7,
    [generate_all] succeeds and replaces the chapter list by chapters
    numbered 1, 2, 3, each of 774 words: fewer than 1400. *)
Theorem generate_all_run_on_outline :
  let w := sample_world (sample_project run_on_outline [sample_chapter 7 (py "Old")]) in
  fst (generate_all sample_id w) = Ok 3
  /\ (map (fun c => (ch_number c, compute_word_count (ch_text c))) ∘ p_chapters)
       <$> stored_project (snd (generate_all sample_id w)) sample_id
     = Some [(1%Z, 774); (2%Z, 774); (3%Z, 774)].
Proof. cbv zeta. split; vm_compute; reflexivity. Qed.

Lemma word_count_consistent_split c :
  word_count_consistent c ->
  ch_word_count c = Z.of_nat (length (split (ch_text c))).
Proof. unfold word_count_consistent. by rewrite compute_word_count_split. Qed.

(** C6. After each operation that writes a chapter, the stored chapter's
    [word_count] is the number of whitespace-separated tokens of its
    stored text, that is the length of [text.split()]: the chapter
    written by a successful [generate_chapter], every chapter written by
    a successful [generate_all], and the chapter written by a successful
    [edit_chapter] whose body has a text. *)
Theorem stored_word_count_matches_text :
  (forall project_id req w c w',
      generate_chapter project_id req w = (Ok c, w') ->
      exists p, stored_project w' project_id = Some p
                /\ c ∈ p_chapters p
                /\ ch_number c = req_chapter_number req
                /\ ch_word_count c = Z.of_nat (length (split (ch_text c))))
  /\ (forall project_id w n w',
      generate_all project_id w = (Ok n, w') ->
      exists p, stored_project w' project_id = Some p
                /\ length (p_chapters p) = n
                /\ Forall (fun c => ch_word_count c
                                    = Z.of_nat (length (split (ch_text c))))
                     (p_chapters p))
  /\ (forall project_id chapter_number body t w c w',
      body_text body = Some t ->
      edit_chapter project_id chapter_number body w = (Ok c, w') ->
      exists p idx, stored_project w' project_id = Some p
                    /\ p_chapters p !! idx = Some c
                    /\ ch_number c = chapter_number
                    /\ ch_text c = enforce_word_range t
                    /\ ch_word_count c = Z.of_nat (length (split (ch_text c)))).
Proof.
  split_and!.
  - intros project_id req w c w' H.
    apply generate_chapter_inv in H as (doc & _ & _ & _ & _ & Hc & Hst).
    eexists. split; [exact Hst|]. split; [apply list_elem_of_singleton; done|].
    split; [by rewrite Hc|].
    apply word_count_consistent_split. by rewrite Hc.
  - intros project_id w n w' H.
    apply generate_all_inv in H as (doc & chapters & t & _ & Hst & -> & _ & Hall).
    eexists. split; [exact Hst|]. split; [done|].
    eapply Forall_impl; [exact Hall|].
    intros c (_ & _ & _ & Hc). by apply word_count_consistent_split.
  - intros project_id chapter_number body t w c w' Ht H.
    apply edit_chapter_inv in H as (doc & idx & c0 & _ & Hidx & Hc & Hst).
    apply list_find_Some in Hidx as (Hlook & Hnum & _).
    exists (set_chapters (<[idx := c]> (p_chapters doc)) (clock w (S (ticks w))) doc), idx.
    split; [exact Hst|].
    split; [apply list_lookup_insert_eq; by eapply lookup_lt_Some|].
    assert (Hcons : word_count_consistent c).
    { rewrite Hc. unfold edit_fields. rewrite Ht. by destruct (body_title body). }
    split_and!; [| |by apply word_count_consistent_split];
      rewrite Hc; unfold edit_fields; rewrite Ht;
      by destruct (body_title body).
Qed.

Lemma stored_word_count_matches_text_witness :
  let w := sample_world (sample_project sample_outline []) in
  let run1 := generate_chapter sample_id (no_instructions 1) w in
  let c1 := result_value (sample_chapter 0 []) (fst run1) in
  let run2 := generate_all sample_id (snd run1) in
  let run3 := edit_chapter sample_id 2 (text_only (py "New text.")) (snd run2) in
  let c3 := result_value (sample_chapter 0 []) (fst run3) in
  (run1 = (Ok c1, snd run1)
   /\ ch_word_count c1 = Z.of_nat (length (split (ch_text c1))))
  /\ (run2 = (Ok 3, snd run2)
      /\ exists p, stored_project (snd run2) sample_id = Some p
                   /\ Forall (fun c => ch_word_count c
                                       = Z.of_nat (length (split (ch_text c))))
                        (p_chapters p))
  /\ (body_text (text_only (py "New text.")) = Some (py "New text.")
      /\ run3 = (Ok c3, snd run3)
      /\ ch_text c3 = enforce_word_range (py "New text.")
      /\ ch_word_count c3 = Z.of_nat (length (split (ch_text c3)))).
Proof.
  intros w run1 c1 run2 run3 c3.
  assert (H1 : run1 = (Ok c1, snd run1)) by (vm_compute; reflexivity).
  assert (H2 : run2 = (Ok 3, snd run2)) by (vm_compute; reflexivity).
  assert (H3 : run3 = (Ok c3, snd run3)) by (vm_compute; reflexivity).
  destruct stored_word_count_matches_text as (G1 & G2 & G3).
  split_and!.
  - exact H1.
  - destruct (G1 _ _ _ _ _ H1) as (p & _ & _ & _ & Hc). exact Hc.
  - exact H2.
  - destruct (G2 _ _ _ _ H2) as (p & Hp & _ & Hall).
    exists p. exact (conj Hp Hall).
  - reflexivity.
  - exact H3.
  - destruct (G3 sample_id 2%Z (text_only (py "New text.")) (py "New text.")
                 _ _ _ eq_refl H3)
      as (p & idx & _ & _ & _ & Htext & _). exact Htext.
  - destruct (G3 sample_id 2%Z (text_only (py "New text.")) (py "New text.")
                 _ _ _ eq_refl H3)
      as (p & idx & _ & _ & _ & _ & Hc). exact Hc.
Defined.

(** C8 as stated fails: a stored project may hold a chapter whose title
    has been edited to the empty string, and on such a project a request
    for chapter 4 of 3 fails in schema validation, not with InvalidRange. *)
Lemma generate_chapter_invalid_document :
  let w0 := sample_world (sample_project sample_outline [sample_chapter 1 (py "Chapter 1")]) in
  let w := snd (edit_chapter sample_id 1 (title_only []) w0) in
  p_chapter_count <$> stored_project w sample_id = Some 3%Z
  /\ fst (generate_chapter sample_id (no_instructions 4) w) = Raise ValidationError
  /\ fst (generate_chapter sample_id (no_instructions 4) w) <> Raise InvalidRange.
Proof.
  cbv zeta.
  assert (H : fst (generate_chapter sample_id (no_instructions 4)
                     (snd (edit_chapter sample_id 1 (title_only [])
                             (sample_world (sample_project sample_outline
                                [sample_chapter 1 (py "Chapter 1")])))))
              = Raise ValidationError) by (vm_compute; reflexivity).
  split; [vm_compute; reflexivity|]. split; [exact H|].
  rewrite H. discriminate.
Qed.

(** C8, amended. On an existing project whose stored document satisfies
    the schema, [generate_chapter] fails with InvalidRange if and only if
    the requested chapter number is outside [1, chapter_count]; on such a
    failure nothing is changed, in particular not the stored chapter list
    nor [updated_at]. *)
Theorem generate_chapter_InvalidRange project_id req w doc :
  stored_project w project_id = Some doc ->
  Project_validate doc = true ->
  (fst (generate_chapter project_id req w) = Raise InvalidRange
   <-> (req_chapter_number req < 1 \/ p_chapter_count doc < req_chapter_number req)%Z)
  /\ (fst (generate_chapter project_id req w) = Raise InvalidRange ->
      snd (generate_chapter project_id req w) = w
      /\ stored_project (snd (generate_chapter project_id req w)) project_id
         = Some doc).
Proof.
  intros Hdoc Hval.
  destruct (decide (req_chapter_number req < 1
                    \/ p_chapter_count doc < req_chapter_number req)%Z)
    as [Hout|Hin].
  - rewrite (generate_chapter_out_of_range _ _ _ _ Hdoc Hval Hout).
    cbn [fst snd]. split; [split; [by intros _|done]|intros _; by split].
  - assert (Hne := generate_chapter_in_range project_id req w doc Hdoc Hval
                     ltac:(lia)).
    split; [split; [by intros ?|by intros ?]|by intros ?].
Qed.

Lemma generate_chapter_InvalidRange_witness :
  let w := sample_world (sample_project sample_outline []) in
  stored_project w sample_id = Some (sample_project sample_outline [])
  /\ Project_validate (sample_project sample_outline []) = true
  /\ fst (generate_chapter sample_id (no_instructions 4) w) = Raise InvalidRange
  /\ snd (generate_chapter sample_id (no_instructions 4) w) = w.
Proof.
  intros w.
  assert (H1 : stored_project w sample_id = Some (sample_project sample_outline []))
    by reflexivity.
  assert (H2 : Project_validate (sample_project sample_outline []) = true)
    by reflexivity.
  destruct (generate_chapter_InvalidRange sample_id (no_instructions 4) w _ H1 H2)
    as [Hiff Hframe].
  assert (H : fst (generate_chapter sample_id (no_instructions 4) w) = Raise InvalidRange).
  { apply Hiff. right. simpl. lia. }
  split_and!; [exact H1|exact H2|exact H|exact (proj1 (Hframe H))].
Defined.

(** What [edit_chapter] does to the addressed chapter and to the list when
    the body has a text and no title, in the terms of the code. *)
Lemma edit_text_only_run project_id chapter_number t w doc idx c :
  stored_project w project_id = Some doc ->
  list_find (fun c => ch_number c = chapter_number) (p_chapters doc) = Some (idx, c) ->
  exists c' w' doc',
    edit_chapter project_id chapter_number (text_only t) w = (Ok c', w')
    /\ stored_project w' project_id = Some doc'
    /\ p_chapters doc' !! idx = Some c'
    /\ ch_text c' = enforce_word_range t
    /\ ch_word_count c' = Z.of_nat (compute_word_count (enforce_word_range t))
    /\ ch_title c' = ch_title c
    /\ ch_updated_at c' = Some (clock w (ticks w))
    /\ ch_number c' = ch_number c
    /\ ch_pov c' = ch_pov c
    /\ ch_created_at c' = ch_created_at c
    /\ length (p_chapters doc') = length (p_chapters doc)
    /\ forall j, j <> idx -> p_chapters doc' !! j = p_chapters doc !! j.
Proof.
  intros Hdoc Hidx.
  destruct (edit_chapter_run project_id chapter_number (text_only t) w doc idx c
              Hdoc Hidx) as (w' & Hrun & Hst).
  apply list_find_Some in Hidx as (Hlook & _ & _).
  eexists _, w', _. split; [exact Hrun|]. split; [exact Hst|].
  cbn [set_chapters p_chapters].
  split; [apply list_lookup_insert_eq; by eapply lookup_lt_Some|].
  split_and!; try reflexivity.
  - apply length_insert.
  - intros j Hj. by apply list_lookup_insert_ne.
Qed.

End StoreClaims.

(** * Further properties of range enforcement and word counting *)

Section EnforceMore.
Import Py PyFacts.

Lemma length_cons_word_eq c g (ws : list str) :
  length (cons_word c g ws) =
  match ws with
  | [] => 1
  | _ :: _ => if g then length ws else S (length ws)
  end.
Proof. by destruct ws, g. Qed.

Lemma starts_word_app (a b : str) : a <> [] -> starts_word (a ++ b) = starts_word a.
Proof. by destruct a. Qed.

Lemma length_split_app_l (a b : str) : length (split a) <= length (split (a ++ b)).
Proof.
  induction a as [|x a IH]; simpl; [lia|].
  destruct (isspace x); [done|].
  destruct a as [|y a].
  - simpl. pose proof (length_cons_word x (starts_word b) (split b)). 
    destruct (cons_word x (starts_word b) (split b)) eqn:E; [|simpl; lia].
    by apply cons_word_neq_nil in E.
  - rewrite starts_word_app by done.
    rewrite !length_cons_word_eq.
    destruct (starts_word (y :: a)) eqn:Hs.
    + pose proof (starts_word_split _ Hs) as H1.
      assert (H2 : split ((y :: a) ++ b) <> []).
      { apply starts_word_split. by rewrite starts_word_app. }
      destruct (split (y :: a)), (split ((y :: a) ++ b)); done.
    + destruct (split (y :: a)), (split ((y :: a) ++ b)); simpl in *; lia.
Qed.

Lemma length_split_app_le (a b : str) :
  length (split (a ++ b)) <= length (split a) + length (split b).
Proof.
  induction a as [|x a IH]; simpl; [lia|].
  destruct (isspace x); [done|].
  destruct a as [|y a].
  - simpl. pose proof (length_cons_word x (starts_word b) (split b)). lia.
  - rewrite starts_word_app by done.
    rewrite !length_cons_word_eq.
    destruct (starts_word (y :: a)) eqn:Hs.
    + pose proof (starts_word_split _ Hs) as H1.
      assert (H2 : split ((y :: a) ++ b) <> []).
      { apply starts_word_split. by rewrite starts_word_app. }
      destruct (split (y :: a)), (split ((y :: a) ++ b)); done.
    + destruct (split (y :: a)), (split ((y :: a) ++ b)); simpl in *; lia.
Qed.

Lemma length_split_take k (s : str) : length (split (take k s)) <= length (split s).
Proof. rewrite <- (take_drop k s) at 2. apply length_split_app_l. Qed.

Lemma rfind_from_lookup c (s : str) i last :
  rfind_from c s i last = last
  \/ exists k, rfind_from c s i last = (i + Z.of_nat k)%Z /\ s !! k = Some c.
Proof.
  revert i last. induction s as [|x s IH]; intros i last; simpl; [by left|].
  destruct (IH (i + 1)%Z (if (x =? c)%N then i else last)) as [E|(k & E & Hk)].
  - rewrite E. destruct (x =? c)%N eqn:Hx; [|by left].
    apply N.eqb_eq in Hx as ->. right. exists 0. split; [lia|done].
  - right. exists (S k). split; [lia|done].
Qed.

(** A result of [rfind] other than -1 is the index of an occurrence. *)
Lemma rfind_lookup c (s : str) :
  rfind c s <> (-1)%Z -> s !! Z.to_nat (rfind c s) = Some c.
Proof.
  intros H. unfold rfind in *.
  destruct (rfind_from_lookup c s 0 (-1)) as [E|(k & E & Hk)]; [done|].
  rewrite E. by replace (Z.to_nat (0 + Z.of_nat k)) with k by lia.
Qed.

(** A string is normalised when it is its words joined by single spaces. *)
Lemma join_split_word_prefix (w : str) k :
  is_word w -> join space (split (take k w)) = take k w.
Proof.
  intros [Hne Hw]. destruct (take k w) as [|c t] eqn:E; [done|].
  rewrite split_word; [done|]. split; [done|].
  rewrite <- E. by apply Forall_take.
Qed.

Lemma join_cons_nonempty (w : str) (ws : list str) :
  ws <> [] -> join space (w :: ws) = w ++ 32%N :: join space ws.
Proof. by destruct ws. Qed.

(** A prefix of a normalised text that does not end in whitespace is
    normalised. *)
Lemma join_split_take (ws : list str) k c :
  Forall is_word ws ->
  last (take k (join space ws)) = Some c -> isspace c = false ->
  join space (split (take k (join space ws))) = take k (join space ws).
Proof.
  intros Hws. revert k. unfold str, char in *.
  induction Hws as [|w ws Hw Hws IH]; intros k Hlast Hc.
  - simpl in Hlast. by rewrite take_nil in Hlast.
  - destruct ws as [|w' ws].
    { simpl. by apply join_split_word_prefix. }
    rewrite join_cons_nonempty in * by done.
    destruct (decide (k <= length w)) as [Hk|Hk].
    + rewrite take_app_le in * by done. by apply join_split_word_prefix.
    + rewrite take_app_ge in * by lia.
      destruct (k - length w) as [|k'] eqn:Ek; [lia|].
      rewrite firstn_cons in *.
      destruct (take k' _) as [|x t] eqn:Et.
      * rewrite last_snoc in Hlast. injection Hlast as <-. done.
      * rewrite split_app_space by done. rewrite split_word by done.
        assert (Hl : last (x :: t) = Some c).
        { rewrite <- Hlast, last_app_cons. reflexivity. }
        rewrite <- Et in Hl. specialize (IH k' Hl Hc). rewrite Et in IH.
        assert (Hne : split (x :: t) <> []).
        { intros E. rewrite E in IH. done. }
        change ([w] ++ split (x :: t)) with (w :: split (x :: t)).
        rewrite join_cons_nonempty by done. by rewrite IH.
Qed.

Lemma join_split_join (ws : list str) :
  Forall is_word ws -> join space (split (join space ws)) = join space ws.
Proof. intros H. by rewrite split_join. Qed.

Lemma last_take_lookup (s : str) n c :
  s !! n = Some c -> last (take (S n) s) = Some c.
Proof.
  intros H. rewrite last_lookup, length_take.
  pose proof (lookup_lt_Some _ _ _ H) as Hlt.
  replace (Init.Nat.pred (S n `min` length s)) with n by lia.
  rewrite lookup_take_lt by lia. done.
Qed.

Lemma trim_long_normalised (words : list str) :
  Forall is_word words ->
  join space (split (trim_long words)) = trim_long words.
Proof.
  intros Hws. unfold trim_long.
  destruct (_ && _) eqn:Hc.
  - apply andb_true_iff in Hc as [H1 H2].
    apply negb_true_iff, Z.eqb_neq in H1. apply Z.ltb_lt in H2.
    pose proof (rfind_lookup _ _ H1) as Hdot.
    change (Z.of_nat target_max - 200)%Z with 1600%Z in H2.
    replace (Z.to_nat (rfind dot (join space (take target_max words)) + 1))
      with (S (Z.to_nat (rfind dot (join space (take target_max words)))))
      by lia.
    apply (join_split_take _ _ dot); [by apply Forall_take| |reflexivity].
    by apply last_take_lookup.
  - apply join_split_join. by apply Forall_take.
Qed.

Lemma trim_long_count (words : list str) :
  Forall is_word words ->
  length (split (trim_long words)) <= target_max.
Proof.
  intros Hws. unfold trim_long.
  assert (H : length (split (join space (take target_max words))) <= target_max).
  { rewrite split_join by by apply Forall_take. rewrite length_take. lia. }
  destruct (_ && _); [|done].
  etrans; [apply length_split_take|done].
Qed.

(** What the three branches of [enforce_word_range] return, with the
    words the padding loop has produced. *)
Lemma enforce_word_range_cases text :
  (length (split text) < target_min
   /\ exists ws, pad_loop target_min (split text) = Some ws
                 /\ enforce_word_range text = join space ws)
  \/ (target_min <= length (split text) <= target_max
      /\ enforce_word_range text = join space (split text))
  \/ (target_max < length (split text)
      /\ enforce_word_range text = trim_long (split text)).
Proof.
  pose proof (enforce_word_range_unfold text) as H.
  unfold enforce_word_range_fuel in H.
  destruct (length (split text) <? target_min) eqn:E.
  - apply Nat.ltb_lt in E. left. split; [done|].
    destruct (pad_loop target_min (split text)) as [ws|] eqn:Hp; [|done].
    injection H as <-. exists ws. split; [done|].
    apply pad_loop_spec in Hp as (_ & _ & Hmax & _); [|apply split_is_word].
    rewrite take_ge; [done|]. specialize (Hmax E).
    unfold target_min, target_max in *. lia.
  - apply Nat.ltb_ge in E. right.
    destruct (target_max <? length (split text)) eqn:E'; injection H as <-.
    + apply Nat.ltb_lt in E'. by right.
    + apply Nat.ltb_ge in E'. left. split; [done|]. by rewrite take_ge.
Qed.

Lemma pad_loop_appends fuel (words words' : list str) :
  pad_loop fuel words = Some words' ->
  exists k, words' = words ++ concat (replicate k (split filler)).
Proof.
  revert words. induction fuel as [|fuel IH]; intros words H;
    [rewrite pad_loop_O in H|rewrite pad_loop_S in H];
    (destruct (_ <? _);
     [|injection H as <-; exists 0; by rewrite app_nil_r]).
  - done.
  - apply IH in H as [k ->]. exists (S k).
    by rewrite <- app_assoc.
Qed.

Lemma enforce_word_range_join_split text :
  join space (split (enforce_word_range text)) = enforce_word_range text.
Proof.
  destruct (enforce_word_range_cases text)
    as [(_ & ws & Hp & ->)|[(_ & ->)|(_ & ->)]].
  - apply join_split_join.
    by apply pad_loop_spec in Hp as (Hw & _); [|apply split_is_word].
  - apply join_split_join, split_is_word.
  - apply trim_long_normalised, split_is_word.
Qed.

Lemma enforce_word_range_le_max text :
  compute_word_count (enforce_word_range text) <= target_max.
Proof.
  rewrite compute_word_count_split.
  destruct (enforce_word_range_cases text)
    as [(Hn & ws & Hp & ->)|[(Hn & ->)|(_ & ->)]].
  - apply pad_loop_spec in Hp as (Hw & _ & Hmax & _); [|apply split_is_word].
    rewrite split_join by done. specialize (Hmax Hn).
    unfold target_min, target_max in *. lia.
  - rewrite split_join by apply split_is_word. lia.
  - apply trim_long_count, split_is_word.
Qed.

(** X1. Whatever the input, the result of [enforce_word_range] is not
    empty, has between 1 and 1800 words, and is normalised: it is its own
    words joined by single spaces, with no whitespace before or after. *)
Theorem enforce_word_range_output_shape (text : pystr) :
  enforce_word_range text <> []
  /\ join space (split (enforce_word_range text)) = enforce_word_range text
  /\ 1 <= compute_word_count (enforce_word_range text) <= target_max.
Proof.
  pose proof (enforce_word_range_nonempty text) as Hne.
  pose proof (enforce_word_range_join_split text) as Hj.
  split_and!; [done|done| |apply enforce_word_range_le_max].
  rewrite compute_word_count_split.
  destruct (split (enforce_word_range text)); [|simpl; lia].
  by rewrite <- Hj in Hne.
Qed.

(** X2. On every text of at most 1800 words the clamp is exact: the result
    has between 1400 and 1800 words, and its words are the words of the
    input followed by whole copies of the 39-word filler block (none when
    the input already has 1400 words). *)
Theorem enforce_word_range_clamps (text : pystr) :
  compute_word_count text <= target_max ->
  target_min <= compute_word_count (enforce_word_range text) <= target_max
  /\ exists k,
       split (enforce_word_range text)
       = split text ++ concat (replicate k (split filler))
       /\ (target_min <= compute_word_count text -> k = 0).
Proof.
  rewrite !compute_word_count_split. intros Hmax.
  destruct (enforce_word_range_cases text)
    as [(Hn & ws & Hp & ->)|[(Hn & ->)|(Hn & _)]]; [| |lia].
  - pose proof Hp as Hp'.
    apply pad_loop_spec in Hp as (Hw & Hlo & Hhi & _); [|apply split_is_word].
    rewrite split_join by done. specialize (Hhi Hn).
    split; [unfold target_min, target_max in *; lia|].
    apply pad_loop_appends in Hp' as [k ->].
    exists k. split; [done|lia].
  - rewrite split_join by apply split_is_word.
    split; [lia|]. exists 0. split; [by rewrite app_nil_r|done].
Qed.

Lemma enforce_word_range_clamps_witness :
  compute_word_count (py "a b") <= target_max
  /\ target_min <= compute_word_count (enforce_word_range (py "a b")) <= target_max.
Proof.
  assert (H : compute_word_count (py "a b") <= target_max) by compute_done.
  split; [exact H|].
  exact (proj1 (enforce_word_range_clamps (py "a b") H)).
Defined.

(** X3. [enforce_word_range] is idempotent on every text it brings into
    range: when the result has at least 1400 words (as it has for every
    input of at most 1800 words), enforcing it again returns it
    unchanged. *)
Theorem enforce_word_range_idempotent (text : pystr) :
  target_min <= compute_word_count (enforce_word_range text) ->
  enforce_word_range (enforce_word_range text) = enforce_word_range text.
Proof.
  intros Hmin.
  rewrite (enforce_word_range_in_range (enforce_word_range text)).
  - apply enforce_word_range_join_split.
  - split; [done|apply enforce_word_range_le_max].
Qed.

Lemma enforce_word_range_idempotent_witness :
  target_min <= compute_word_count (enforce_word_range (py "a b"))
  /\ enforce_word_range (enforce_word_range (py "a b"))
     = enforce_word_range (py "a b").
Proof.
  assert (H : target_min <= compute_word_count (enforce_word_range (py "a b")))
    by compute_done.
  split; [exact H|].
  exact (enforce_word_range_idempotent (py "a b") H).
Defined.

(** X4. [compute_word_count] counts the tokens of [text.split()] (its
    filter on [w.strip()] never removes one), and counts add up over
    texts put together with a space: this is how the routes extend a text
    before counting it again. *)
Theorem compute_word_count_additive :
  (forall text, compute_word_count text = length (split text))
  /\ (forall a b,
        compute_word_count (a ++ space ++ b)
        = compute_word_count a + compute_word_count b).
Proof.
  split; [apply compute_word_count_split|].
  intros a b. rewrite !compute_word_count_split.
  change (a ++ space ++ b) with (a ++ 32%N :: b).
  by rewrite split_app_space, length_app.
Qed.

End EnforceMore.

(** * Further properties of the synthesizer *)

Section GeneratorMore.
Import Py PyFacts.

Lemma of_string_uint_nospace d :
  Forall (fun c => isspace c = false) (of_string (NilEmpty.string_of_uint d)).
Proof. induction d; simpl; constructor; done. Qed.

Lemma of_string_uint_zero_word d : is_word (of_string (NilZero.string_of_uint d)).
Proof.
  split.
  - by destruct d.
  - destruct d; try apply (of_string_uint_nospace (_ _)).
    by repeat constructor.
Qed.

(** The decimal form of an integer is one word. *)
Lemma of_int_word n : is_word (of_int n).
Proof.
  unfold of_int. destruct (Z.to_int n) as [d|d]; simpl.
  - apply of_string_uint_zero_word.
  - destruct (of_string_uint_zero_word d) as [_ H].
    split; [done|]. by constructor.
Qed.

Lemma length_split_of_int n : length (split (of_int n)) = 1.
Proof. by rewrite split_word by apply of_int_word. Qed.

Lemma length_split_app_bound (a b : str) n m :
  length (split a) <= n -> length (split b) <= m ->
  length (split (a ++ b)) <= n + m.
Proof. intros Ha Hb. pose proof (length_split_app_le a b). lia. Qed.

Lemma length_split_join (ls : list str) :
  length (split (join space ls)) = sum_list_with (fun l => length (split l)) (ls).
Proof.
  induction ls as [|l ls IH]; [done|].
  destruct ls as [|l' ls]; [simpl; lia|].
  change (join space (l :: l' :: ls)) with (l ++ 32%N :: join space (l' :: ls)).
  rewrite split_app_space by done. rewrite length_app, IH. done.
Qed.

Lemma header_count pov : length (split (header pov)) <= 37 + length (split pov).
Proof.
  unfold header. rewrite !app_assoc. rewrite <- (app_assoc _ pov).
  replace (37 + length (split pov)) with (21 + (length (split pov) + 16)) by lia.
  rewrite <- !app_assoc. rewrite (app_assoc (py _) (py _)).
  apply length_split_app_bound; [compute_done|].
  apply length_split_app_bound; [done|compute_done].
Qed.

Lemma genre_note_count genre : length (split (genre_note genre)) <= 18.
Proof.
  unfold genre_note.
  repeat (destruct (eqb genre _); [compute_done|]). compute_done.
Qed.

Lemma intro_count idx total genre : length (split (intro idx total genre)) <= 52.
Proof.
  unfold intro.
  apply (length_split_app_bound _ _ 3 49); [compute_done|].
  apply (length_split_app_bound _ _ 1 48); [by rewrite length_split_of_int|].
  apply (length_split_app_bound _ _ 1 47); [compute_done|].
  apply (length_split_app_bound _ _ 1 46); [by rewrite length_split_of_int|].
  apply (length_split_app_bound _ _ 15 31); [compute_done|].
  apply (length_split_app_bound _ _ 13 18); [compute_done|].
  apply genre_note_count.
Qed.

Lemma scene_count i p :
  sum_list_with (fun l => length (split l)) ((scene i p)) <= 85 + length (split p).
Proof.
  unfold scene. cbn [sum_list_with].
  assert (H : length (split (py "Scene " ++ of_int (Z.of_nat i + 1) ++ py ": " ++ p
                ++ py ". I look for what matters right now. I describe only what I would notice."))
              <= 18 + length (split p)).
  { replace (18 + length (split p)) with (1 + (1 + (1 + (length (split p) + 15)))) by lia.
    apply length_split_app_bound; [compute_done|].
    apply length_split_app_bound; [by rewrite length_split_of_int|].
    apply length_split_app_bound; [compute_done|].
    apply length_split_app_bound; [done|compute_done]. }
  change (length (split (py "I watch faces and hands. I listen for tone. I keep my feelings steady and honest."))) with 16.
  change (length (split (py "I let the moment slow enough to understand it, then I make a choice that moves the scene forward."))) with 19.
  change (length (split (py "Dialogue feels natural. I speak in clear sentences. I avoid dramatic fragments and fancy images."))) with 15.
  change (length (split (py "My body tells a simple truth: my breath changes, my shoulders tense, my hands warm or cool."))) with 17.
  lia.
Qed.

Lemma scenes_count (f : nat -> str -> list str) (l : list str) k c :
  (forall i p, sum_list_with (fun l => length (split l)) ((f i p)) <= c + length (split p)) ->
  Forall (fun p => length (split p) <= k) l ->
  sum_list_with (fun l => length (split l)) ((concat (imap f l))) <= length l * (c + k).
Proof.
  intros Hf Hl. revert f Hf. induction Hl as [|p l Hp Hl IH]; intros f Hf; [done|].
  rewrite imap_cons. cbn [concat]. rewrite sum_list_with_app.
  specialize (IH (f ∘ S) (fun i p => Hf (S i) p)).
  specialize (Hf 0 p). simpl length. lia.
Qed.

(** The text before the elaboration loop: at most 158 words besides the
    point of view, and 85 words plus the part for each of at most 8
    scenes. *)
Lemma chapter_lines_count parts idx total pov genre k :
  Forall (fun p => length (split p) <= k) parts ->
  length (split (join space (chapter_lines parts idx total pov genre)))
  <= 158 + length (split pov) + 8 * (85 + k).
Proof.
  intros Hparts. rewrite length_split_join. unfold chapter_lines.
  rewrite !sum_list_with_app.
  cbn [sum_list_with].
  pose proof (header_count pov). pose proof (intro_count idx total genre).
  assert (Ht : Forall (fun p => length (split p) <= k) (take 8 parts))
    by by apply Forall_take.
  pose proof (scenes_count scene (take 8 parts) k 85 scene_count Ht) as Hs.
  assert (length (take 8 parts) <= 8) by (rewrite length_take; lia).
  assert (Hc : sum_list_with (fun l => length (split l)) (closing) = 69)
    by reflexivity.
  rewrite Hc. nia.
Qed.

Lemma elaboration_count_upper base step :
  compute_word_count (base ++ elaboration step)
  <= compute_word_count base + 60 + compute_word_count step.
Proof.
  rewrite elaboration_count, (compute_word_count_split step).
  pose proof (length_split_app_le step (elaboration_tail ++ elaboration_fixed)) as H.
  change (length (split (elaboration_tail ++ elaboration_fixed))) with 51 in H.
  lia.
Qed.

(** The elaboration loop stops within one paragraph of its target. *)
Lemma elaborate_upper fuel cycle idx base r k :
  elaborate fuel cycle idx base = Some r ->
  Forall (fun p => length (split p) <= k) cycle ->
  compute_word_count r <= compute_word_count base `max` (1509 + k).
Proof.
  intros H Hc. revert idx base H. induction fuel as [|fuel IH]; intros idx base H.
  - rewrite elaborate_O in H. destruct (_ <? _); [done|].
    injection H as <-. lia.
  - rewrite elaborate_S in H. destruct (_ <? _) eqn:E.
    + apply Nat.ltb_lt in E.
      destruct (cycle !! _) as [step|] eqn:Hstep; [|done]. simpl in H.
      apply IH in H.
      pose proof (elaboration_count_upper base step) as Hu.
      apply list_elem_of_lookup_2 in Hstep.
      pose proof (proj1 (Forall_forall _ _) Hc step Hstep) as Hk.
      cbv beta in Hk. rewrite <- compute_word_count_split in Hk.
      unfold elaboration_target in E. lia.
    + injection H as <-. lia.
Qed.

Lemma lstrip_suffix P (s : str) : exists pre, s = pre ++ lstrip P s.
Proof.
  induction s as [|c s [pre IH]]; [by exists []|]. simpl.
  destruct (P c); [|by exists []].
  exists (c :: pre). by rewrite <- app_comm_cons, <- IH.
Qed.

Lemma rstrip_prefix P (s : str) : exists post, s = rstrip P s ++ post.
Proof.
  unfold rstrip. destruct (lstrip_suffix P (reverse s)) as [pre H].
  exists (reverse pre).
  rewrite <- reverse_app, <- H. by rewrite reverse_involutive.
Qed.

Lemma strip_count P (s : str) : length (split (strip P s)) <= length (split s).
Proof.
  unfold strip.
  destruct (lstrip_suffix P s) as [pre H1].
  destruct (rstrip_prefix P (lstrip P s)) as [post H2].
  etrans; [apply (length_split_app_l _ post)|]. rewrite <- H2.
  rewrite H1 at 2. apply length_split_app_r.
Qed.

Lemma Forall_List_filter {A} (P : A -> Prop) (f : A -> bool) (l : list A) :
  Forall P l -> Forall P (List.filter f l).
Proof.
  induction 1 as [|x l Hx Hl IH]; simpl; [done|].
  destruct (f x); [by constructor|done].
Qed.

(** The parts of an outline have no more words than its lines. *)
Lemma outline_parts_count outline k :
  14 <= k ->
  Forall (fun l => compute_word_count l <= k) (splitlines outline) ->
  Forall (fun p => length (split p) <= k) (outline_parts outline).
Proof.
  intros Hk Hl. unfold outline_parts.
  assert (H : Forall (fun p => length (split p) <= k)
                (map (strip bullet_chars)
                   (List.filter (fun p => truthy (strip isspace p))
                      (splitlines outline)))).
  { apply Forall_fmap, Forall_List_filter.
    eapply Forall_impl; [exact Hl|]. intros l Hc. unfold compose. cbv beta in *.
    rewrite compute_word_count_split in Hc.
    pose proof (strip_count bullet_chars l). lia. }
  destruct (map _ _); [|done].
  constructor; [|done].
  change (length (split default_part)) with 14. done.
Qed.

Lemma grounded_chapter_generator_fuel_run fuel outline idx total pov genre r :
  grounded_chapter_generator_fuel fuel outline idx total pov genre = Some r ->
  exists b,
    elaborate fuel
      (match outline_parts outline with
       | [] => [py "progress"]
       | _ => outline_parts outline
       end) 0
      (join space (chapter_lines (outline_parts outline) idx total pov genre))
    = Some b
    /\ enforce_word_range_fuel fuel b = Some r.
Proof.
  unfold grounded_chapter_generator_fuel. intros H.
  destruct (elaborate fuel _ _ _) as [b|] eqn:E; [|done].
  exists b. split; [done|exact H].
Qed.

(** On an outline of short lines, the text the elaboration loop ends with
    is within range, so that range enforcement only normalises it. *)
Lemma generator_base_in_range outline idx total pov genre :
  Forall (fun l => compute_word_count l <= 120) (splitlines outline) ->
  compute_word_count pov <= 1 ->
  exists b,
    elaborate elaboration_target
      (match outline_parts outline with
       | [] => [py "progress"]
       | _ => outline_parts outline
       end) 0
      (join space (chapter_lines (outline_parts outline) idx total pov genre))
    = Some b
    /\ elaboration_target <= compute_word_count b <= target_max
    /\ grounded_chapter_generator outline idx total pov genre
       = join space (split b).
Proof.
  intros Hlines Hpov.
  pose proof (outline_parts_count outline 120 ltac:(lia) Hlines) as Hparts.
  destruct (grounded_chapter_generator_fuel_run _ _ _ _ _ _ _
              (grounded_chapter_generator_unfold outline idx total pov genre))
    as (b & E & H).
  exists b. split; [done|].
  assert (Hlo := elaborate_reaches_target _ _ _ _ _ E).
  assert (Hhi : compute_word_count b <= target_max).
  { eapply (elaborate_upper _ _ _ _ _ 120) in E.
    - pose proof (chapter_lines_count (outline_parts outline) idx total pov genre
                    120 Hparts) as Hb.
      rewrite <- !compute_word_count_split in Hb.
      unfold target_max. lia.
    - revert Hparts. destruct (outline_parts outline); intros Hparts; [|done].
      constructor; [compute_done|done]. }
  split; [done|].
  apply enforce_word_range_fuel_eq in H. rewrite H.
  apply enforce_word_range_in_range.
  unfold elaboration_target, target_min in *. lia.
Qed.

Lemma generator_in_range_aux outline idx total pov genre :
  Forall (fun l => compute_word_count l <= 120) (splitlines outline) ->
  compute_word_count pov <= 1 ->
  elaboration_target
  <= compute_word_count (grounded_chapter_generator outline idx total pov genre)
  <= target_max.
Proof.
  intros Hlines Hpov.
  destruct (generator_base_in_range outline idx total pov genre Hlines Hpov)
    as (b & _ & Hb & ->).
  rewrite compute_word_count_split, split_join by apply split_is_word.
  by rewrite <- compute_word_count_split.
Qed.

End GeneratorMore.

Section GeneratorExtras.
Import Py PyFacts.

Lemma resolve_chapter_pov_one_word pov_mode n :
  compute_word_count (resolve_chapter_pov pov_mode n) = 1.
Proof.
  unfold resolve_chapter_pov.
  destruct (eqb pov_mode _); [done|].
  destruct (eqb pov_mode _); [done|].
  by destruct (_ =? _)%Z.
Qed.

Lemma chapter_text_in_range project n :
  Forall (fun l => compute_word_count l <= 120) (splitlines (p_outline project)) ->
  elaboration_target <= compute_word_count (chapter_text project n) <= target_max.
Proof.
  intros H. unfold chapter_text. apply generator_in_range_aux; [done|].
  by rewrite resolve_chapter_pov_one_word.
Qed.

(** X5. When no line of the outline has more than 120 words and the point
    of view is at most one word, the synthesized chapter has between 1450
    and 1800 words, whatever the chapter index, chapter total and genre;
    no word of the text built from the templates is then trimmed. *)
Theorem grounded_chapter_generator_in_range
    (outline : pystr) (idx total : Z) (pov genre : pystr) :
  Forall (fun l => compute_word_count l <= 120) (splitlines outline) ->
  compute_word_count pov <= 1 ->
  elaboration_target
  <= compute_word_count (grounded_chapter_generator outline idx total pov genre)
  <= target_max
  /\ exists fuel base,
       elaborate fuel
         (match outline_parts outline with
          | [] => [py "progress"]
          | _ => outline_parts outline
          end) 0
         (join space (chapter_lines (outline_parts outline) idx total pov genre))
       = Some base
       /\ split (grounded_chapter_generator outline idx total pov genre)
          = split base.
Proof.
  intros Hlines Hpov.
  split; [by apply generator_in_range_aux|].
  destruct (generator_base_in_range outline idx total pov genre Hlines Hpov)
    as (b & E & _ & ->).
  exists elaboration_target, b. split; [done|].
  apply split_join, split_is_word.
Qed.

Lemma grounded_chapter_generator_in_range_witness :
  Forall (fun l => compute_word_count l <= 120) (splitlines sample_outline)
  /\ compute_word_count (py "female") <= 1
  /\ elaboration_target
     <= compute_word_count
          (grounded_chapter_generator sample_outline 1 3 (py "female") (py "general"))
     <= target_max.
Proof.
  assert (H1 : Forall (fun l => compute_word_count l <= 120) (splitlines sample_outline))
    by compute_done.
  assert (H2 : compute_word_count (py "female") <= 1) by compute_done.
  split; [exact H1|]. split; [exact H2|].
  exact (proj1 (grounded_chapter_generator_in_range sample_outline 1 3
                  (py "female") (py "general") H1 H2)).
Defined.

(** X6. Under mode dual (or any mode other than female and male) the
    resolved point of view alternates: consecutive chapter numbers never
    get the same one, for every integer, and numbers two apart get the
    same one. *)
Theorem resolve_chapter_pov_alternates (pov_mode : pystr) (n : Z) :
  pov_mode <> py "female" -> pov_mode <> py "male" ->
  resolve_chapter_pov pov_mode n <> resolve_chapter_pov pov_mode (n + 1)
  /\ resolve_chapter_pov pov_mode (n + 2) = resolve_chapter_pov pov_mode n.
Proof.
  intros Hf Hm. unfold resolve_chapter_pov, eqb.
  rewrite !bool_decide_eq_false_2 by done.
  replace ((n + 2) mod 2)%Z with (n mod 2)%Z
    by (rewrite <- (Z.mod_add n 1 2) by lia; f_equal; lia).
  split; [|done].
  destruct (Z.mod_pos_bound n 2 ltac:(lia)) as [H0 H2].
  destruct (decide (n mod 2 = 0)%Z) as [E|E].
  - replace ((n + 1) mod 2)%Z with 1%Z
      by (rewrite Z.add_mod, E by lia; reflexivity).
    rewrite E. done.
  - assert (E1 : (n mod 2 = 1)%Z) by lia.
    replace ((n + 1) mod 2)%Z with 0%Z
      by (rewrite Z.add_mod, E1 by lia; reflexivity).
    rewrite E1. done.
Qed.

Lemma resolve_chapter_pov_alternates_witness :
  py "dual" <> py "female" /\ py "dual" <> py "male"
  /\ resolve_chapter_pov (py "dual") (-3) <> resolve_chapter_pov (py "dual") (-3 + 1).
Proof.
  assert (H1 : py "dual" <> py "female") by discriminate.
  assert (H2 : py "dual" <> py "male") by discriminate.
  split; [exact H1|]. split; [exact H2|].
  exact (proj1 (resolve_chapter_pov_alternates (py "dual") (-3) H1 H2)).
Defined.

End GeneratorExtras.

(** * What the routes leave unchanged *)

Section Keeps.
Context (R : World -> World -> Prop).
Hypothesis R_refl : forall w, R w w.
Hypothesis R_trans : forall w1 w2 w3, R w1 w2 -> R w2 w3 -> R w1 w3.

Lemma keeps_ret {A} (a : A) : keeps R (ret a).
Proof. intros w. apply R_refl. Qed.

Lemma keeps_raise {A} e : keeps R (@raise A e).
Proof. intros w. apply R_refl. Qed.

Lemma keeps_bind {A B} (m : M A) (k : A -> M B) :
  keeps R m -> (forall a, keeps R (k a)) -> keeps R (bind m k).
Proof.
  intros Hm Hk w. unfold bind. specialize (Hm w).
  destruct (m w) as [[a|e] w1]; simpl in *; [|done].
  eapply R_trans; [exact Hm|apply Hk].
Qed.

Lemma keeps_try_except {A} (m : M A) (h : Error -> M A) :
  keeps R m -> (forall e, keeps R (h e)) -> keeps R (try_except m h).
Proof.
  intros Hm Hh w. unfold try_except. specialize (Hm w).
  destruct (m w) as [[a|e] w1]; simpl in *; [done|].
  eapply R_trans; [exact Hm|apply Hh].
Qed.

Lemma keeps_collection name : keeps R (collection name).
Proof. intros w. unfold collection. destruct (db w); apply R_refl. Qed.

Lemma keeps_ObjectId project_id : keeps R (ObjectId project_id).
Proof. intros w. unfold ObjectId. destruct (parse_oid _); apply R_refl. Qed.

Lemma keeps_find_one coll oid : keeps R (find_one coll oid).
Proof. apply keeps_ret. Qed.

Lemma keeps_find_project project_id : keeps R (find_project project_id).
Proof.
  unfold find_project. apply keeps_bind.
  - apply keeps_try_except; [|intros; apply keeps_raise].
    apply keeps_bind; [apply keeps_collection|intros coll].
    apply keeps_bind; [apply keeps_ObjectId|intros oid].
    apply keeps_find_one.
  - intros [d|]; [apply keeps_ret|apply keeps_raise].
Qed.

Lemma keeps_find_document project_id : keeps R (find_document project_id).
Proof.
  unfold find_document.
  apply keeps_try_except; [|intros; apply keeps_raise].
  apply keeps_bind; [apply keeps_collection|intros coll].
  apply keeps_bind; [apply keeps_ObjectId|intros oid].
  apply keeps_bind; [apply keeps_find_one|intros d]. apply keeps_ret.
Qed.

Lemma keeps_Project_of_doc doc : keeps R (Project_of_doc doc).
Proof.
  unfold Project_of_doc.
  destruct (Project_validate doc); [apply keeps_ret|apply keeps_raise].
Qed.

Lemma keeps_Chapter_new number title text word_count pov :
  keeps R (Chapter_new number title text word_count pov).
Proof.
  unfold Chapter_new.
  destruct (Chapter_validate _); [apply keeps_ret|apply keeps_raise].
Qed.

Lemma keeps_existing_index chapters ch_num :
  keeps R (existing_index chapters ch_num).
Proof.
  unfold existing_index. destruct chapters; [apply keeps_ret|apply keeps_raise].
Qed.

(** The routes, given that reading the clock and writing the chapters of
    the addressed project keep the relation. *)
Context (project_id : pystr).
Hypothesis R_now : keeps R now.
Hypothesis R_store : forall chapters, keeps R (store_chapters project_id chapters).

Lemma keeps_generate_chapter req :
  keeps R (generate_chapter project_id req).
Proof.
  unfold generate_chapter.
  apply keeps_bind; [apply keeps_find_project|intros doc].
  apply keeps_bind; [apply keeps_Project_of_doc|intros project]. cbv zeta.
  destruct (_ || _); [apply keeps_raise|].
  apply keeps_bind; [apply keeps_Chapter_new|intros chapter].
  apply keeps_bind; [apply keeps_existing_index|intros i].
  apply keeps_bind; [apply R_now|intros created].
  apply keeps_bind; [apply R_now|intros updated].
  apply keeps_bind; [apply R_store|intros _]. apply keeps_ret.
Qed.

Lemma keeps_generate_all_loop project nums chapters :
  keeps R (generate_all_loop project nums chapters).
Proof.
  revert chapters. induction nums as [|n nums IH]; intros chapters.
  - apply keeps_ret.
  - change (generate_all_loop project (n :: nums) chapters)
      with (chapter <- Chapter_new n (chapter_title n) (chapter_text project n)
                         (Z.of_nat (compute_word_count (chapter_text project n)))
                         (resolve_chapter_pov (p_pov_mode project) n) ;;
            created <- now ;;
            updated <- now ;;
            generate_all_loop project nums
              (chapters ++ [set_timestamps chapter created updated])).
    apply keeps_bind; [apply keeps_Chapter_new|intros chapter].
    apply keeps_bind; [apply R_now|intros created].
    apply keeps_bind; [apply R_now|intros updated].
    apply IH.
Qed.

Lemma keeps_generate_all : keeps R (generate_all project_id).
Proof.
  unfold generate_all.
  apply keeps_bind; [apply keeps_find_project|intros doc].
  apply keeps_bind; [apply keeps_Project_of_doc|intros project].
  apply keeps_bind; [apply keeps_generate_all_loop|intros chapters].
  apply keeps_bind; [apply R_store|intros _]. apply keeps_ret.
Qed.

Lemma keeps_edit_chapter chapter_number body :
  keeps R (edit_chapter project_id chapter_number body).
Proof.
  unfold edit_chapter.
  apply keeps_bind; [apply keeps_find_project|intros doc]. cbv zeta.
  destruct (list_find _ _) as [[idx c]|]; [|apply keeps_raise].
  apply keeps_bind; [apply R_now|intros t].
  apply keeps_bind; [apply R_store|intros _]. apply keeps_ret.
Qed.

End Keeps.

Section Frames.

Lemma only_project_changed_refl project_id w : only_project_changed project_id w w.
Proof. unfold only_project_changed. by split_and!. Qed.

Lemma only_project_changed_trans project_id w1 w2 w3 :
  only_project_changed project_id w1 w2 ->
  only_project_changed project_id w2 w3 ->
  only_project_changed project_id w1 w3.
Proof.
  intros (A1 & A2 & A3 & A4 & A5) (B1 & B2 & B3 & B4 & B5).
  unfold only_project_changed. split_and!.
  - intros oid H. by rewrite B1, A1.
  - intros oid. by rewrite B2, A2.
  - by rewrite B3, A3.
  - by rewrite B4, A4.
  - lia.
Qed.

Lemma only_project_changed_now project_id :
  keeps (only_project_changed project_id) now.
Proof.
  intros w. unfold only_project_changed, now, tick. simpl.
  split_and!; try done. lia.
Qed.

Lemma only_project_changed_store project_id chapters :
  keeps (only_project_changed project_id) (store_chapters project_id chapters).
Proof.
  intros w. unfold store_chapters, bind, collection, ObjectId, now,
    update_one_set, ret, raise, tick.
  destruct (db w) as [coll|] eqn:Hdb; [|apply only_project_changed_refl].
  destruct (parse_oid project_id) as [oid|] eqn:Hoid;
    [|apply only_project_changed_refl].
  unfold only_project_changed, lookup_doc. simpl. rewrite Hdb. simpl.
  split_and!; try done; [| |lia].
  - intros oid' H. apply lookup_alter_ne. congruence.
  - intros oid'. destruct (decide (oid = oid')) as [->|Hne].
    + rewrite lookup_alter_eq. by rewrite fmap_is_Some.
    + by rewrite lookup_alter_ne.
Qed.

Lemma db_stable_now : keeps (fun w w' => db w' = db w) now.
Proof. by intros w. Qed.

End Frames.

(** * Error behaviour and frames of the routes *)

Section RouteExtras.
Import Py PyFacts.

Lemma bind_run_Raise {A B} (m : M A) (k : A -> M B) w e w1 :
  m w = (Raise e, w1) -> bind m k w = (Raise e, w1).
Proof. unfold bind. by intros ->. Qed.

Lemma fails_clean_ret {A} (a : A) : fails_clean (ret a).
Proof. by intros w e. Qed.

Lemma fails_clean_raise {A} e : fails_clean (@raise A e).
Proof. by intros w e'. Qed.

Lemma fails_clean_bind {A B} (m : M A) (k : A -> M B) :
  keeps (fun w w' => db w' = db w) m ->
  (forall a, fails_clean (k a)) ->
  fails_clean (bind m k).
Proof.
  intros Hm Hk w e. unfold bind. specialize (Hm w).
  destruct (m w) as [[a|e'] w1]; simpl in *; [|done].
  intros H. rewrite (Hk a w1 e H). done.
Qed.

Lemma fails_clean_store project_id chapters {A} (a : A) :
  fails_clean (store_chapters project_id chapters ;;; ret a).
Proof.
  intros w e. unfold store_chapters, bind, collection, ObjectId, now,
    update_one_set, ret, raise.
  destruct (db w) eqn:Hdb; [|by simpl].
  destruct (parse_oid project_id); [done|by simpl].
Qed.

Lemma db_stable_refl w : db w = db w.
Proof. done. Qed.

Lemma db_stable_trans (w1 w2 w3 : World) :
  db w2 = db w1 -> db w3 = db w2 -> db w3 = db w1.
Proof. congruence. Qed.

Lemma fails_clean_generate_chapter project_id req :
  fails_clean (generate_chapter project_id req).
Proof.
  unfold generate_chapter.
  apply fails_clean_bind;
    [apply keeps_find_project; [apply db_stable_refl|apply db_stable_trans]|].
  intros doc. apply fails_clean_bind;
    [apply keeps_Project_of_doc; apply db_stable_refl|].
  intros project. cbv zeta.
  destruct (_ || _); [apply fails_clean_raise|].
  apply fails_clean_bind; [apply keeps_Chapter_new; apply db_stable_refl|].
  intros chapter. apply fails_clean_bind;
    [apply keeps_existing_index; apply db_stable_refl|].
  intros i. apply fails_clean_bind; [apply db_stable_now|].
  intros created. apply fails_clean_bind; [apply db_stable_now|].
  intros updated. apply fails_clean_store.
Qed.

Lemma fails_clean_generate_all project_id : fails_clean (generate_all project_id).
Proof.
  unfold generate_all.
  apply fails_clean_bind;
    [apply keeps_find_project; [apply db_stable_refl|apply db_stable_trans]|].
  intros doc. apply fails_clean_bind;
    [apply keeps_Project_of_doc; apply db_stable_refl|].
  intros project. apply fails_clean_bind.
  - apply keeps_generate_all_loop;
      [apply db_stable_refl|apply db_stable_trans|apply db_stable_now].
  - intros chapters. apply fails_clean_store.
Qed.

Lemma fails_clean_edit_chapter project_id chapter_number body :
  fails_clean (edit_chapter project_id chapter_number body).
Proof.
  unfold edit_chapter.
  apply fails_clean_bind;
    [apply keeps_find_project; [apply db_stable_refl|apply db_stable_trans]|].
  intros doc. cbv zeta.
  destruct (list_find _ _) as [[idx c]|]; [|apply fails_clean_raise].
  apply fails_clean_bind; [apply db_stable_now|].
  intros t. apply fails_clean_store.
Qed.

(** X7. No partial writes: when [generate_chapter], [generate_all] or
    [edit_chapter] fails, with whatever exception, the store is as it was
    before the request. *)
Theorem failed_request_writes_nothing :
  (forall project_id req w e,
      fst (generate_chapter project_id req w) = Raise e ->
      db (snd (generate_chapter project_id req w)) = db w)
  /\ (forall project_id w e,
      fst (generate_all project_id w) = Raise e ->
      db (snd (generate_all project_id w)) = db w)
  /\ (forall project_id chapter_number body w e,
      fst (edit_chapter project_id chapter_number body w) = Raise e ->
      db (snd (edit_chapter project_id chapter_number body w)) = db w).
Proof.
  split_and!.
  - intros project_id req. apply fails_clean_generate_chapter.
  - intros project_id. apply fails_clean_generate_all.
  - intros project_id chapter_number body. apply fails_clean_edit_chapter.
Qed.

Lemma failed_request_writes_nothing_witness :
  let w := sample_world (sample_project sample_outline [sample_chapter 1 (py "One")]) in
  fst (generate_chapter sample_id (no_instructions 1) w) = Raise AttributeError
  /\ db (snd (generate_chapter sample_id (no_instructions 1) w)) = db w.
Proof.
  intros w.
  assert (H : fst (generate_chapter sample_id (no_instructions 1) w)
              = Raise AttributeError) by (vm_compute; reflexivity).
  split; [exact H|].
  exact (proj1 failed_request_writes_nothing sample_id (no_instructions 1) w _ H).
Defined.

Lemma unchanged_refl (w : World) : w = w.
Proof. done. Qed.

Lemma unchanged_trans (w1 w2 w3 : World) : w2 = w1 -> w3 = w2 -> w3 = w1.
Proof. congruence. Qed.

(** X8. A request touches nothing but the project it addresses: after
    [generate_chapter], [generate_all] or [edit_chapter], whatever the
    outcome, every document stored under another identifier is unchanged,
    no document has been added or removed, and the clock has only been
    read; [copy_chapter_text] and [get_project] change nothing at all. *)
Theorem routes_change_only_their_project (project_id : pystr) :
  (forall req w,
      only_project_changed project_id w (snd (generate_chapter project_id req w)))
  /\ (forall w,
      only_project_changed project_id w (snd (generate_all project_id w)))
  /\ (forall chapter_number body w,
      only_project_changed project_id w
        (snd (edit_chapter project_id chapter_number body w)))
  /\ (forall chapter_number w,
      snd (copy_chapter_text project_id chapter_number w) = w)
  /\ (forall w, snd (get_project project_id w) = w).
Proof.
  split_and!.
  - intros req. apply keeps_generate_chapter;
      [apply only_project_changed_refl|apply only_project_changed_trans
      |apply only_project_changed_now|apply only_project_changed_store].
  - apply keeps_generate_all;
      [apply only_project_changed_refl|apply only_project_changed_trans
      |apply only_project_changed_now|apply only_project_changed_store].
  - intros chapter_number body. apply keeps_edit_chapter;
      [apply only_project_changed_refl|apply only_project_changed_trans
      |apply only_project_changed_now|apply only_project_changed_store].
  - intros chapter_number.
    change (keeps (fun w w' => w' = w) (copy_chapter_text project_id chapter_number)).
    unfold copy_chapter_text.
    apply (keeps_bind _ unchanged_trans).
    + apply (keeps_find_project _ unchanged_refl unchanged_trans).
    + intros doc. destruct (list_find _ _) as [[idx c]|]; by intros w.
  - change (keeps (fun w w' => w' = w) (get_project project_id)).
    unfold get_project.
    apply (keeps_bind _ unchanged_trans).
    + apply (keeps_find_document _ unchanged_refl unchanged_trans).
    + intros [d|]; by intros w.
Qed.

End RouteExtras.

Section RouteErrors.
Import Py PyFacts.

Lemma find_project_invalid project_id w :
  db w = None \/ parse_oid project_id = None ->
  find_project project_id w = (Raise InvalidIdentifier, w).
Proof.
  intros H. unfold find_project, bind, try_except, collection, ObjectId, raise.
  destruct (db w); [|done].
  destruct H as [H|H]; [done|]. by rewrite H.
Qed.

Lemma find_document_invalid project_id w :
  db w = None \/ parse_oid project_id = None ->
  find_document project_id w = (Raise InvalidIdentifier, w).
Proof.
  intros H. unfold find_document, bind, try_except, collection, ObjectId, raise.
  destruct (db w); [|done].
  destruct H as [H|H]; [done|]. by rewrite H.
Qed.

Lemma find_project_missing project_id w coll oid :
  db w = Some coll -> parse_oid project_id = Some oid -> coll !! oid = None ->
  find_project project_id w = (Raise ProjectNotFound, w).
Proof.
  intros Hdb Hoid Hdoc.
  unfold find_project, bind, try_except, collection, ObjectId, find_one, ret, raise.
  by rewrite Hdb, Hoid, Hdoc.
Qed.

Lemma find_document_run project_id w coll oid :
  db w = Some coll -> parse_oid project_id = Some oid ->
  find_document project_id w = (Ok (pair oid <$> coll !! oid), w).
Proof.
  intros Hdb Hoid.
  unfold find_document, bind, try_except, collection, ObjectId, find_one, ret.
  by rewrite Hdb, Hoid.
Qed.

Lemma world_eta w : {| db := db w; clock := clock w; ticks := ticks w |} = w.
Proof. by destruct w. Qed.

Lemma get_project_missing project_id w coll oid :
  db w = Some coll -> parse_oid project_id = Some oid -> coll !! oid = None ->
  get_project project_id w = (Raise ProjectNotFound, w).
Proof.
  intros Hdb Hoid Hdoc. unfold get_project.
  rewrite (bind_run_Ok _ _ _ _ _ (find_document_run _ _ _ _ Hdb Hoid)).
  by rewrite Hdoc.
Qed.

Lemma delete_project_missing project_id w coll oid :
  db w = Some coll -> parse_oid project_id = Some oid -> coll !! oid = None ->
  delete_project project_id w = (Ok false, w).
Proof.
  intros Hdb Hoid Hdoc.
  unfold delete_project, bind, try_except, collection, ObjectId, delete_one, ret.
  rewrite Hdb, Hoid. simpl. rewrite Hdb. simpl. rewrite Hdoc. simpl.
  rewrite delete_id by done. rewrite <- Hdb. by rewrite world_eta.
Qed.

(** X9. When the database is not configured, or the identifier is not
    well formed, every route that takes a project identifier fails with
    400 "Invalid project id" (an unconfigured database is not reported as
    the 500 of [collection]) and leaves the world as it is. *)
Theorem routes_invalid_identifier (project_id : pystr) (w : World) :
  db w = None \/ parse_oid project_id = None ->
  (forall req, generate_chapter project_id req w = (Raise InvalidIdentifier, w))
  /\ generate_all project_id w = (Raise InvalidIdentifier, w)
  /\ (forall n body, edit_chapter project_id n body w = (Raise InvalidIdentifier, w))
  /\ (forall n, copy_chapter_text project_id n w = (Raise InvalidIdentifier, w))
  /\ get_project project_id w = (Raise InvalidIdentifier, w)
  /\ delete_project project_id w = (Raise InvalidIdentifier, w).
Proof.
  intros H.
  pose proof (find_project_invalid project_id w H) as Hf.
  pose proof (find_document_invalid project_id w H) as Hd.
  split_and!; intros;
    try (eapply bind_run_Raise; eassumption).
  unfold delete_project, bind, try_except, collection, ObjectId, raise.
  destruct (db w); [|done].
  destruct H as [H|H]; [done|]. by rewrite H.
Qed.

Lemma routes_invalid_identifier_witness :
  (db unconfigured_world = None \/ parse_oid sample_id = None)
  /\ generate_all sample_id unconfigured_world
     = (Raise (HTTPException 400 "Invalid project id"), unconfigured_world).
Proof.
  assert (H : db unconfigured_world = None \/ parse_oid sample_id = None)
    by (left; reflexivity).
  split; [exact H|].
  exact (proj1 (proj2 (routes_invalid_identifier sample_id unconfigured_world H))).
Defined.

(** X10. On a well-formed identifier under which nothing is stored, the
    routes that read a project fail with 404 "Project not found" and leave
    the world as it is, while [delete_project] does not fail: it reports
    that nothing was deleted, and leaves the world as it is too. *)
Theorem routes_missing_project (project_id : pystr) (w : World) coll oid :
  db w = Some coll -> parse_oid project_id = Some oid -> coll !! oid = None ->
  (forall req, generate_chapter project_id req w = (Raise ProjectNotFound, w))
  /\ generate_all project_id w = (Raise ProjectNotFound, w)
  /\ (forall n body, edit_chapter project_id n body w = (Raise ProjectNotFound, w))
  /\ (forall n, copy_chapter_text project_id n w = (Raise ProjectNotFound, w))
  /\ get_project project_id w = (Raise ProjectNotFound, w)
  /\ delete_project project_id w = (Ok false, w).
Proof.
  intros Hdb Hoid Hdoc.
  pose proof (find_project_missing project_id w coll oid Hdb Hoid Hdoc) as Hf.
  split_and!; intros;
    try (eapply bind_run_Raise; eassumption).
  - by eapply get_project_missing.
  - by eapply delete_project_missing.
Qed.

Lemma routes_missing_project_witness :
  let w := sample_world (sample_project sample_outline []) in
  db w = Some {[ 1%N := sample_project sample_outline [] ]}
  /\ parse_oid other_id = Some 255%N
  /\ ({[ 1%N := sample_project sample_outline [] ]} : gmap N Project) !! 255%N = None
  /\ delete_project other_id w = (Ok false, w)
  /\ get_project other_id w = (Raise (HTTPException 404 "Project not found"), w).
Proof.
  intros w.
  assert (H1 : db w = Some {[ 1%N := sample_project sample_outline [] ]})
    by reflexivity.
  assert (H2 : parse_oid other_id = Some 255%N) by reflexivity.
  assert (H3 : ({[ 1%N := sample_project sample_outline [] ]} : gmap N Project)
               !! 255%N = None) by reflexivity.
  destruct (routes_missing_project other_id w _ _ H1 H2 H3)
    as (_ & _ & _ & _ & Hget & Hdel).
  split_and!; [exact H1|exact H2|exact H3|exact Hdel|exact Hget].
Defined.

(** X11. [delete_project] on a stored project reports a deletion and
    removes the document and nothing else; afterwards the project is
    gone for every route, and a second deletion reports that nothing was
    deleted. *)
Theorem delete_project_removes (project_id : pystr) (w : World) doc :
  stored_project w project_id = Some doc ->
  exists w',
    delete_project project_id w = (Ok true, w')
    /\ stored_project w' project_id = None
    /\ (forall oid, parse_oid project_id <> Some oid ->
          lookup_doc w' oid = lookup_doc w oid)
    /\ clock w' = clock w /\ ticks w' = ticks w
    /\ get_project project_id w' = (Raise ProjectNotFound, w')
    /\ delete_project project_id w' = (Ok false, w').
Proof.
  intros (coll & oid & Hdb & Hoid & Hdoc)%stored_project_inv.
  exists {| db := Some (delete oid coll); clock := clock w; ticks := ticks w |}.
  assert (Hrun : delete_project project_id w
                 = (Ok true, {| db := Some (delete oid coll); clock := clock w;
                                ticks := ticks w |})).
  { unfold delete_project, bind, try_except, collection, ObjectId, delete_one, ret.
    rewrite Hdb, Hoid. simpl. rewrite Hdb. simpl. by rewrite Hdoc. }
  assert (Hgone : delete oid coll !! oid = None) by apply lookup_delete_eq.
  pose proof (get_project_missing project_id
                {| db := Some (delete oid coll); clock := clock w; ticks := ticks w |}
                (delete oid coll) oid eq_refl Hoid Hgone) as Hget.
  pose proof (delete_project_missing project_id
                {| db := Some (delete oid coll); clock := clock w; ticks := ticks w |}
                (delete oid coll) oid eq_refl Hoid Hgone) as Hdel.
  split_and!; try done.
  - unfold stored_project. simpl. by rewrite Hoid.
  - intros oid' Hne. unfold lookup_doc. simpl. rewrite Hdb. simpl.
    apply lookup_delete_ne. congruence.
Qed.

Lemma delete_project_removes_witness :
  let doc := sample_project sample_outline [] in
  stored_project (sample_world doc) sample_id = Some doc
  /\ fst (delete_project sample_id (sample_world doc)) = Ok true
  /\ stored_project (snd (delete_project sample_id (sample_world doc))) sample_id
     = None.
Proof.
  intros doc.
  assert (H : stored_project (sample_world doc) sample_id = Some doc)
    by reflexivity.
  split; [exact H|].
  destruct (delete_project_removes sample_id (sample_world doc) doc H)
    as (w' & Hrun & Hgone & _).
  rewrite Hrun. exact (conj eq_refl Hgone).
Defined.

End RouteErrors.

(** * Editing, copying and generating *)

Section RouteEffects.
Import Py PyFacts.

Lemma list_find_insert_same {A} (P : A -> Prop) `{forall x, Decision (P x)}
    (l : list A) i x y :
  list_find P l = Some (i, x) -> P y -> list_find P (<[i := y]> l) = Some (i, y).
Proof.
  intros (Hi & Hx & Hbefore)%list_find_Some Hy.
  apply list_find_Some. split_and!; [|done|].
  - apply list_lookup_insert_eq. by eapply lookup_lt_Some.
  - intros j z Hj Hlt. rewrite list_lookup_insert_ne in Hj by lia.
    by eapply Hbefore.
Qed.

Lemma edit_fields_number body c : ch_number (edit_fields body c) = ch_number c.
Proof. unfold edit_fields. by destruct (body_title body), (body_text body). Qed.

Lemma edit_fields_consistent body c :
  word_count_consistent c -> word_count_consistent (edit_fields body c).
Proof.
  unfold edit_fields, word_count_consistent.
  by destruct (body_title body), (body_text body).
Qed.

Lemma copy_chapter_text_run project_id chapter_number w doc idx c :
  stored_project w project_id = Some doc ->
  list_find (fun c => ch_number c = chapter_number) (p_chapters doc) = Some (idx, c) ->
  copy_chapter_text project_id chapter_number w
  = (Ok (ch_title c, ch_text c, ch_word_count c), w).
Proof.
  intros Hdoc Hidx. unfold copy_chapter_text.
  rewrite (bind_run_Ok _ _ _ _ _ (find_project_stored _ _ _ Hdoc)).
  by rewrite Hidx.
Qed.

Lemma copy_chapter_text_missing project_id chapter_number w doc :
  stored_project w project_id = Some doc ->
  list_find (fun c => ch_number c = chapter_number) (p_chapters doc) = None ->
  copy_chapter_text project_id chapter_number w = (Raise ChapterNotFound, w).
Proof.
  intros Hdoc Hidx. unfold copy_chapter_text.
  rewrite (bind_run_Ok _ _ _ _ _ (find_project_stored _ _ _ Hdoc)).
  by rewrite Hidx.
Qed.

(** X12. On an existing project, [edit_chapter] and [copy_chapter_text]
    fail with 404 "Chapter not found" exactly when no stored chapter has
    the requested number, and then leave the world as it is. *)
Theorem chapter_not_found (project_id : pystr) (chapter_number : Z)
    (body : EditChapterRequest) (w : World) doc :
  stored_project w project_id = Some doc ->
  (fst (edit_chapter project_id chapter_number body w) = Raise ChapterNotFound
   <-> Forall (fun c => ch_number c <> chapter_number) (p_chapters doc))
  /\ (fst (copy_chapter_text project_id chapter_number w) = Raise ChapterNotFound
      <-> Forall (fun c => ch_number c <> chapter_number) (p_chapters doc))
  /\ (Forall (fun c => ch_number c <> chapter_number) (p_chapters doc) ->
      edit_chapter project_id chapter_number body w = (Raise ChapterNotFound, w)
      /\ copy_chapter_text project_id chapter_number w = (Raise ChapterNotFound, w)).
Proof.
  intros Hdoc.
  destruct (list_find (fun c => ch_number c = chapter_number) (p_chapters doc))
    as [[idx c]|] eqn:Hidx.
  - destruct (edit_chapter_run project_id chapter_number body w doc idx c Hdoc Hidx)
      as (w' & Hrun & _).
    rewrite Hrun, (copy_chapter_text_run _ _ _ _ _ _ Hdoc Hidx).
    assert (Hn : ~ Forall (fun c => ch_number c <> chapter_number) (p_chapters doc)).
    { intros Hall.
      apply (proj2 (list_find_None (fun c => ch_number c = chapter_number) _)) in Hall.
      congruence. }
    split_and!; [split| split|]; try done.
  - pose proof (proj1 (list_find_None (fun c => ch_number c = chapter_number) _) Hidx)
      as Hall.
    assert (He : edit_chapter project_id chapter_number body w
                 = (Raise ChapterNotFound, w)).
    { unfold edit_chapter.
      rewrite (bind_run_Ok _ _ _ _ _ (find_project_stored _ _ _ Hdoc)).
      by rewrite Hidx. }
    rewrite He, (copy_chapter_text_missing _ _ _ _ Hdoc Hidx).
    by split_and!.
Qed.

Lemma chapter_not_found_witness :
  let doc := sample_project sample_outline [sample_chapter 1 (py "One")] in
  stored_project (sample_world doc) sample_id = Some doc
  /\ Forall (fun c => ch_number c <> 2%Z) (p_chapters doc)
  /\ edit_chapter sample_id 2 (text_only (py "New text.")) (sample_world doc)
     = (Raise (HTTPException 404 "Chapter not found"), sample_world doc).
Proof.
  intros doc.
  assert (H1 : stored_project (sample_world doc) sample_id = Some doc)
    by reflexivity.
  assert (H2 : Forall (fun c => ch_number c <> 2%Z) (p_chapters doc))
    by (repeat constructor; discriminate).
  split; [exact H1|]. split; [exact H2|].
  exact (proj1 (proj2 (proj2 (chapter_not_found sample_id 2
                                (text_only (py "New text.")) (sample_world doc)
                                doc H1)) H2)).
Defined.

(** X13. [edit_chapter] applies only the fields provided. Whatever the
    body, the addressed chapter keeps its number, point of view and
    creation time and gets the current time as [updated_at]; its title
    is the one of the body if there is one and is kept otherwise; without
    a text in the body its text and word count are kept. The numbers of
    the stored chapters, in order, are the same as before. *)
Theorem edit_chapter_fields (project_id : pystr) (chapter_number : Z)
    (body : EditChapterRequest) (w : World) doc idx c :
  stored_project w project_id = Some doc ->
  list_find (fun c => ch_number c = chapter_number) (p_chapters doc) = Some (idx, c) ->
  exists c' w' doc',
    edit_chapter project_id chapter_number body w = (Ok c', w')
    /\ stored_project w' project_id = Some doc'
    /\ p_chapters doc' = <[idx := c']> (p_chapters doc)
    /\ map ch_number (p_chapters doc') = map ch_number (p_chapters doc)
    /\ ch_number c' = chapter_number
    /\ ch_pov c' = ch_pov c
    /\ ch_created_at c' = ch_created_at c
    /\ ch_updated_at c' = Some (clock w (ticks w))
    /\ ch_title c' = default (ch_title c) (body_title body)
    /\ (body_text body = None ->
        ch_text c' = ch_text c /\ ch_word_count c' = ch_word_count c)
    /\ p_updated_at doc' = Some (clock w (S (ticks w))).
Proof.
  intros Hdoc Hidx.
  destruct (edit_chapter_run project_id chapter_number body w doc idx c Hdoc Hidx)
    as (w' & Hrun & Hst).
  apply list_find_Some in Hidx as (Hlook & Hnum & _).
  eexists _, w', _. split; [exact Hrun|]. split; [exact Hst|].
  cbn [set_chapters p_chapters p_updated_at].
  split; [done|]. split.
  { rewrite list_fmap_insert. apply list_insert_id.
    rewrite list_lookup_fmap, Hlook. cbn [set_updated_at ch_number].
    by rewrite edit_fields_number. }
  cbn [set_updated_at ch_number ch_pov ch_created_at ch_updated_at ch_title
       ch_text ch_word_count].
  rewrite edit_fields_number. unfold edit_fields.
  split_and!; try done.
  - by destruct (body_title body), (body_text body).
  - by destruct (body_title body), (body_text body).
  - by destruct (body_title body), (body_text body).
  - intros ->. by destruct (body_title body).
Qed.

Lemma edit_chapter_fields_witness :
  let doc := sample_project sample_outline
               [sample_chapter 2 (py "Two"); sample_chapter 1 (py "One")] in
  stored_project (sample_world doc) sample_id = Some doc
  /\ list_find (fun c => ch_number c = 1%Z) (p_chapters doc)
     = Some (1, sample_chapter 1 (py "One"))
  /\ exists c' w',
       edit_chapter sample_id 1 (title_only (py "First")) (sample_world doc)
       = (Ok c', w')
       /\ ch_title c' = py "First" /\ ch_text c' = py "It starts.".
Proof.
  intros doc.
  assert (H1 : stored_project (sample_world doc) sample_id = Some doc)
    by reflexivity.
  assert (H2 : list_find (fun c => ch_number c = 1%Z) (p_chapters doc)
               = Some (1, sample_chapter 1 (py "One"))) by reflexivity.
  split; [exact H1|]. split; [exact H2|].
  destruct (edit_chapter_fields sample_id 1%Z (title_only (py "First"))
              (sample_world doc) doc 1 (sample_chapter 1 (py "One")) H1 H2)
    as (c' & w' & doc' & Hrun & _ & _ & _ & _ & _ & _ & _ & Ht & Hx & _).
  exists c', w'. split; [exact Hrun|]. split; [exact Ht|].
  exact (proj1 (Hx eq_refl)).
Defined.

(** X14. The invariant that every stored chapter's [word_count] is the
    word count of its text is kept by every successful [edit_chapter] on
    a project where it holds, whatever the body. *)
Theorem edit_chapter_keeps_word_counts (project_id : pystr) (chapter_number : Z)
    (body : EditChapterRequest) (w : World) doc c' w' :
  stored_project w project_id = Some doc ->
  Forall word_count_consistent (p_chapters doc) ->
  edit_chapter project_id chapter_number body w = (Ok c', w') ->
  exists doc',
    stored_project w' project_id = Some doc'
    /\ Forall word_count_consistent (p_chapters doc').
Proof.
  intros Hdoc Hall Hrun.
  apply edit_chapter_inv in Hrun as (doc0 & idx & c & Hdoc0 & Hidx & -> & Hst).
  assert (doc0 = doc) as -> by congruence.
  eexists. split; [exact Hst|]. cbn [set_chapters p_chapters].
  apply list_find_Some in Hidx as (Hlook & _ & _).
  apply Forall_insert; [done|].
  unfold word_count_consistent. cbn [set_updated_at ch_word_count ch_text].
  apply edit_fields_consistent.
  by eapply (proj1 (Forall_lookup _ _) Hall).
Qed.

Lemma edit_chapter_keeps_word_counts_witness :
  let doc := sample_project sample_outline [sample_chapter 1 (py "One")] in
  let run := edit_chapter sample_id 1 (title_only (py "First")) (sample_world doc) in
  let c' := result_value (sample_chapter 0 []) (fst run) in
  stored_project (sample_world doc) sample_id = Some doc
  /\ Forall word_count_consistent (p_chapters doc)
  /\ run = (Ok c', snd run)
  /\ exists doc', stored_project (snd run) sample_id = Some doc'
                  /\ Forall word_count_consistent (p_chapters doc').
Proof.
  intros doc run c'.
  assert (H1 : stored_project (sample_world doc) sample_id = Some doc)
    by reflexivity.
  assert (H2 : Forall word_count_consistent (p_chapters doc))
    by (repeat constructor).
  assert (H3 : run = (Ok c', snd run)) by (vm_compute; reflexivity).
  split; [exact H1|]. split; [exact H2|]. split; [exact H3|].
  exact (edit_chapter_keeps_word_counts sample_id 1%Z (title_only (py "First"))
           (sample_world doc) doc c' (snd run) H1 H2 H3).
Defined.

(** X15. What [edit_chapter] has written is what [copy_chapter_text]
    reads back: after a successful edit of chapter [n], copying chapter
    [n] returns the title, text and word count of the edited chapter; in
    particular a text sent in the body comes back range-enforced, with
    the word count of the enforced text. *)
Theorem copy_after_edit (project_id : pystr) (chapter_number : Z)
    (body : EditChapterRequest) (w : World) c' w' :
  edit_chapter project_id chapter_number body w = (Ok c', w') ->
  copy_chapter_text project_id chapter_number w'
  = (Ok (ch_title c', ch_text c', ch_word_count c'), w')
  /\ (forall t, body_title body = Some t -> ch_title c' = t)
  /\ (forall t, body_text body = Some t ->
        ch_text c' = enforce_word_range t
        /\ ch_word_count c' = Z.of_nat (compute_word_count (enforce_word_range t))).
Proof.
  intros Hrun.
  apply edit_chapter_inv in Hrun as (doc & idx & c & Hdoc & Hidx & -> & Hst).
  split.
  - eapply copy_chapter_text_run; [exact Hst|].
    cbn [set_chapters p_chapters].
    apply (list_find_insert_same _ _ _ _ _ Hidx).
    cbn [set_updated_at ch_number]. rewrite edit_fields_number.
    by apply list_find_Some in Hidx as (_ & ? & _).
  - cbn [set_updated_at ch_title ch_text ch_word_count]. unfold edit_fields.
    split.
    + intros t ->. by destruct (body_text body).
    + intros t ->. by destruct (body_title body).
Qed.

Lemma copy_after_edit_witness :
  let doc := sample_project sample_outline [sample_chapter 1 (py "One")] in
  let run := edit_chapter sample_id 1 (text_only (py "New text.")) (sample_world doc) in
  let c' := result_value (sample_chapter 0 []) (fst run) in
  run = (Ok c', snd run)
  /\ copy_chapter_text sample_id 1 (snd run)
     = (Ok (py "One", ch_text c', ch_word_count c'), snd run).
Proof.
  intros doc run c'.
  assert (H : run = (Ok c', snd run)) by (vm_compute; reflexivity).
  split; [exact H|].
  destruct (copy_after_edit sample_id 1%Z (text_only (py "New text."))
              (sample_world doc) c' (snd run) H) as (Hcopy & _ & _).
  rewrite Hcopy. vm_compute. reflexivity.
Defined.

End RouteEffects.

(** * Generating chapters *)

Section Generating.
Import Py PyFacts.

Lemma numbered_lookup (chapters : list Chapter) k i c :
  map ch_number chapters = seqZ 1 k -> chapters !! i = Some c ->
  ch_number c = (1 + Z.of_nat i)%Z /\ (Z.of_nat i < k)%Z.
Proof.
  intros Hmap Hc.
  assert (H : map ch_number chapters !! i = Some (ch_number c))
    by (by rewrite list_lookup_fmap, Hc).
  rewrite Hmap in H. by apply lookup_seqZ in H.
Qed.

Lemma numbered_find (chapters : list Chapter) k n :
  map ch_number chapters = seqZ 1 k -> (1 <= n <= k)%Z ->
  exists c, list_find (fun c => ch_number c = n) chapters
            = Some (Z.to_nat (n - 1), c)
            /\ ch_number c = n.
Proof.
  intros Hmap Hn.
  assert (Hlen : length chapters = Z.to_nat k)
    by (by rewrite <- (length_map ch_number), Hmap, length_seqZ).
  destruct (lookup_lt_is_Some_2 chapters (Z.to_nat (n - 1))) as [c Hc]; [lia|].
  exists c. destruct (numbered_lookup _ _ _ _ Hmap Hc) as [Hnum _].
  split; [|lia]. apply list_find_Some. split_and!; [done|lia|].
  intros j y Hy Hlt. destruct (numbered_lookup _ _ _ _ Hmap Hy) as [Hj _]. lia.
Qed.

Lemma numbered_find_None (chapters : list Chapter) k n :
  map ch_number chapters = seqZ 1 k -> ~ (1 <= n <= k)%Z ->
  list_find (fun c => ch_number c = n) chapters = None.
Proof.
  intros Hmap Hn. apply list_find_None, Forall_lookup. intros i c Hc.
  destruct (numbered_lookup _ _ _ _ Hmap Hc). lia.
Qed.

(** The synthesizer ends with range enforcement. *)
Lemma grounded_chapter_generator_enforced outline idx total pov genre :
  exists b, grounded_chapter_generator outline idx total pov genre
            = enforce_word_range b.
Proof.
  destruct (grounded_chapter_generator_fuel_run _ _ _ _ _ _ _
              (grounded_chapter_generator_unfold outline idx total pov genre))
    as (b & _ & H).
  exists b. by apply enforce_word_range_fuel_eq in H.
Qed.

Lemma chapter_text_le_max project n :
  1 <= compute_word_count (chapter_text project n) <= target_max.
Proof.
  unfold chapter_text.
  destruct (grounded_chapter_generator_enforced (p_outline project) n
              (p_chapter_count project)
              (resolve_chapter_pov (p_pov_mode project) n)
              (genre_or_general (p_genre project))) as [b ->].
  split; [|apply enforce_word_range_le_max].
  pose proof (enforce_word_range_nonempty b) as Hne.
  pose proof (enforce_word_range_join_split b) as Hj.
  rewrite compute_word_count_split.
  destruct (split (enforce_word_range b)); [|simpl; lia].
  by rewrite <- Hj in Hne.
Qed.

Lemma apply_instructions_le_max instructions project n :
  1 <= compute_word_count (apply_instructions instructions (chapter_text project n))
  <= target_max.
Proof.
  unfold apply_instructions.
  destruct instructions as [[|c i]|]; try apply chapter_text_le_max.
  split; [|apply enforce_word_range_le_max].
  match goal with |- 1 <= compute_word_count (enforce_word_range ?t) =>
    pose proof (enforce_word_range_nonempty t) as Hne;
    pose proof (enforce_word_range_join_split t) as Hj;
    rewrite compute_word_count_split;
    destruct (split (enforce_word_range t)); [|simpl; lia];
    by rewrite <- Hj in Hne
  end.
Qed.

(** X16. [generate_chapter] never replaces or extends a stored chapter
    list: on a schema-valid project that already has a chapter, every
    request with a number in range fails with [AttributeError] (the
    search for the chapter to replace calls [get] on a [Chapter] object)
    and leaves the world as it is; a request that succeeds was made on a
    project without chapters, whose chapter list is then the one new
    chapter. *)
Theorem generate_chapter_only_first (project_id : pystr)
    (req : GenerateChapterRequest) (w : World) :
  (forall doc,
      stored_project w project_id = Some doc ->
      Project_validate doc = true ->
      (1 <= req_chapter_number req <= p_chapter_count doc)%Z ->
      p_chapters doc <> [] ->
      generate_chapter project_id req w = (Raise AttributeError, w))
  /\ (forall c w',
      generate_chapter project_id req w = (Ok c, w') ->
      exists doc doc',
        stored_project w project_id = Some doc /\ p_chapters doc = []
        /\ stored_project w' project_id = Some doc' /\ p_chapters doc' = [c]).
Proof.
  split.
  - intros doc. apply generate_chapter_existing_chapters.
  - intros c w' H.
    apply generate_chapter_inv in H as (doc & Hdoc & _ & _ & Hnil & _ & Hst).
    by eexists doc, _.
Qed.

Lemma generate_chapter_only_first_witness :
  let doc := sample_project sample_outline [sample_chapter 1 (py "One")] in
  stored_project (sample_world doc) sample_id = Some doc
  /\ Project_validate doc = true
  /\ (1 <= req_chapter_number (no_instructions 1) <= p_chapter_count doc)%Z
  /\ p_chapters doc <> []
  /\ generate_chapter sample_id (no_instructions 1) (sample_world doc)
     = (Raise AttributeError, sample_world doc).
Proof.
  intros doc.
  assert (H1 : stored_project (sample_world doc) sample_id = Some doc)
    by reflexivity.
  assert (H2 : Project_validate doc = true) by reflexivity.
  assert (H3 : (1 <= req_chapter_number (no_instructions 1) <= p_chapter_count doc)%Z)
    by (simpl; lia).
  assert (H4 : p_chapters doc <> []) by discriminate.
  split; [exact H1|]. split; [exact H2|]. split; [exact H3|]. split; [exact H4|].
  destruct (generate_chapter_only_first sample_id (no_instructions 1)
              (sample_world doc)) as [Hfail _].
  exact (Hfail doc H1 H2 H3 H4).
Defined.

(** X17. On a schema-valid project without chapters, a request with a
    number in range succeeds: it reads the clock three times, stores the
    one chapter with the resolved point of view, the title "Chapter n",
    the first two clock readings as creation and update times and a
    consistent word count of at most 1800, and sets the project's
    [updated_at] to the third reading. Without instructions, and with no
    outline line longer than 120 words, the chapter has between 1450 and
    1800 words. *)
Theorem generate_chapter_first_chapter (project_id : pystr)
    (req : GenerateChapterRequest) (w : World) doc :
  stored_project w project_id = Some doc ->
  Project_validate doc = true ->
  (1 <= req_chapter_number req <= p_chapter_count doc)%Z ->
  p_chapters doc = [] ->
  exists c w',
    generate_chapter project_id req w = (Ok c, w')
    /\ stored_project w' project_id
       = Some (set_chapters [c] (clock w (S (S (ticks w)))) doc)
    /\ clock w' = clock w /\ ticks w' = S (S (S (ticks w)))
    /\ ch_number c = req_chapter_number req
    /\ ch_title c = chapter_title (req_chapter_number req)
    /\ ch_pov c = resolve_chapter_pov (p_pov_mode doc) (req_chapter_number req)
    /\ ch_created_at c = Some (clock w (ticks w))
    /\ ch_updated_at c = Some (clock w (S (ticks w)))
    /\ word_count_consistent c
    /\ (1 <= ch_word_count c <= 1800)%Z
    /\ (req_user_instructions req = None ->
        Forall (fun l => compute_word_count l <= 120) (splitlines (p_outline doc)) ->
        (1450 <= ch_word_count c <= 1800)%Z).
Proof.
  intros Hdoc Hval Hn Hnil.
  destruct (generate_chapter_first project_id req w doc Hdoc Hval Hn Hnil)
    as (c & w' & Hrun).
  exists c, w'. split; [exact Hrun|].
  pose proof Hrun as Hinv.
  apply generate_chapter_inv in Hinv as (doc0 & Hdoc0 & _ & _ & _ & Hc & Hst).
  assert (doc0 = doc) as -> by congruence.
  split; [exact Hst|].
  assert (Hticks : clock w' = clock w /\ ticks w' = S (S (S (ticks w)))).
  { clear Hst Hc.
    rewrite (generate_chapter_validated _ _ _ _ Hdoc Hval) in Hrun.
    destruct Hn as [H1 H2]. pose proof H1 as H1'.
    apply Z.ltb_ge in H1', H2. rewrite H1', H2 in Hrun. cbn [orb] in Hrun.
    rewrite (bind_run_Ok _ _ _ _ _
               (Chapter_new_valid _ _ _ _ _ w H1 (chapter_title_nonempty _)
                  (apply_instructions_nonempty _ _ (chapter_text_nonempty doc _))))
      in Hrun.
    rewrite Hnil in Hrun. unfold bind at 1 in Hrun.
    unfold existing_index, ret at 1 in Hrun.
    unfold bind at 1 in Hrun. unfold now at 1 in Hrun.
    unfold bind at 1 in Hrun. unfold now at 1 in Hrun.
    match type of Hrun with
    | bind (store_chapters ?pid ?chs) _ ?w0 = _ =>
        destruct (store_chapters_stored w0 pid chs doc Hdoc)
          as (w1 & Hst & _ & Hclock & Hticks);
        rewrite (bind_run_Ok _ _ _ _ _ Hst) in Hrun
    end.
    injection Hrun as _ <-. by rewrite Hclock, Hticks. }
  destruct Hticks as [Hclock Hticks].
  split; [exact Hclock|]. split; [exact Hticks|].
  rewrite Hc. unfold word_count_consistent.
  cbn [set_timestamps ch_number ch_title ch_pov ch_created_at ch_updated_at
       ch_word_count ch_text].
  pose proof (apply_instructions_le_max (req_user_instructions req) doc
                (req_chapter_number req)) as Hle.
  unfold target_max in Hle.
  split_and!; try done; [lia|lia|].
  intros -> Hlines.
  pose proof (chapter_text_in_range doc (req_chapter_number req) Hlines) as Hr.
  unfold apply_instructions, elaboration_target, target_max in *. lia.
Qed.

Lemma generate_chapter_first_chapter_witness :
  let doc := sample_project sample_outline [] in
  stored_project (sample_world doc) sample_id = Some doc
  /\ Project_validate doc = true
  /\ (1 <= req_chapter_number (no_instructions 2) <= p_chapter_count doc)%Z
  /\ p_chapters doc = []
  /\ exists c w',
       generate_chapter sample_id (no_instructions 2) (sample_world doc) = (Ok c, w')
       /\ ch_pov c = resolve_chapter_pov (py "dual") 2.
Proof.
  intros doc.
  assert (H1 : stored_project (sample_world doc) sample_id = Some doc)
    by reflexivity.
  assert (H2 : Project_validate doc = true) by reflexivity.
  assert (H3 : (1 <= req_chapter_number (no_instructions 2) <= p_chapter_count doc)%Z)
    by (simpl; lia).
  assert (H4 : p_chapters doc = []) by reflexivity.
  split; [exact H1|]. split; [exact H2|]. split; [exact H3|]. split; [exact H4|].
  destruct (generate_chapter_first_chapter sample_id (no_instructions 2)
              (sample_world doc) doc H1 H2 H3 H4)
    as (c & w' & Hrun & _ & _ & _ & _ & _ & Hpov & _).
  exists c, w'. exact (conj Hrun Hpov).
Defined.

(** X18. [generate_all] on a schema-valid project succeeds and replaces
    the chapter list by [chapter_count] chapters numbered 1, 2, ... in
    order, each with the synthesized text for its number, the title
    "Chapter n", the resolved point of view, a consistent word count of at
    most 1800; when no line of the outline has more than 120 words, every
    chapter has between 1450 and 1800 words. The other fields of the
    project are kept, [updated_at] excepted. *)
Theorem generate_all_chapters (project_id : pystr) (w : World) doc :
  stored_project w project_id = Some doc ->
  Project_validate doc = true ->
  exists w' chapters t,
    generate_all project_id w = (Ok (Z.to_nat (p_chapter_count doc)), w')
    /\ stored_project w' project_id = Some (set_chapters chapters t doc)
    /\ map ch_number chapters = seqZ 1 (p_chapter_count doc)
    /\ Forall (fun c =>
          ch_text c = chapter_text doc (ch_number c)
          /\ ch_title c = chapter_title (ch_number c)
          /\ ch_pov c = resolve_chapter_pov (p_pov_mode doc) (ch_number c)
          /\ word_count_consistent c
          /\ (1 <= ch_word_count c <= 1800)%Z) chapters
    /\ (Forall (fun l => compute_word_count l <= 120) (splitlines (p_outline doc)) ->
        Forall (fun c => (1450 <= ch_word_count c <= 1800)%Z) chapters).
Proof.
  intros Hdoc Hval.
  destruct (generate_all_succeeds project_id w doc Hdoc Hval) as [w' Hrun].
  pose proof Hrun as Hinv.
  apply generate_all_inv in Hinv as (doc0 & chapters & t & Hdoc0 & Hst & _ & Hnum & Hall).
  assert (doc0 = doc) as -> by congruence.
  exists w', chapters, t. split; [exact Hrun|]. split; [exact Hst|].
  split; [exact Hnum|]. split.
  - eapply Forall_impl; [exact Hall|]. intros c (Ht & Hti & Hp & Hc).
    split_and!; try done; rewrite Hc, Ht;
      pose proof (chapter_text_le_max doc (ch_number c)) as Hle;
      unfold target_max in Hle; lia.
  - intros Hlines. eapply Forall_impl; [exact Hall|].
    intros c (Ht & _ & _ & Hc). cbv beta. rewrite Hc, Ht.
    pose proof (chapter_text_in_range doc (ch_number c) Hlines) as Hr.
    unfold elaboration_target, target_max in Hr. lia.
Qed.

Lemma generate_all_chapters_witness :
  let doc := sample_project sample_outline [sample_chapter 7 (py "Old")] in
  stored_project (sample_world doc) sample_id = Some doc
  /\ Project_validate doc = true
  /\ fst (generate_all sample_id (sample_world doc)) = Ok 3.
Proof.
  intros doc.
  assert (H1 : stored_project (sample_world doc) sample_id = Some doc)
    by reflexivity.
  assert (H2 : Project_validate doc = true) by reflexivity.
  split; [exact H1|]. split; [exact H2|].
  destruct (generate_all_chapters sample_id (sample_world doc) doc H1 H2)
    as (w' & chapters & t & Hrun & _).
  rewrite Hrun. reflexivity.
Defined.

(** X19. After [generate_all] on a schema-valid project, every chapter
    number from 1 to [chapter_count] can be copied, giving the title
    "Chapter n" and the synthesized text with its word count, and every
    other number gives 404 "Chapter not found": chapters stored before
    under other numbers are gone. *)
Theorem copy_after_generate_all (project_id : pystr) (w : World) doc :
  stored_project w project_id = Some doc ->
  Project_validate doc = true ->
  exists w',
    generate_all project_id w = (Ok (Z.to_nat (p_chapter_count doc)), w')
    /\ forall n,
         ((1 <= n <= p_chapter_count doc)%Z ->
          copy_chapter_text project_id n w'
          = (Ok (chapter_title n, chapter_text doc n,
                 Z.of_nat (compute_word_count (chapter_text doc n))), w'))
         /\ (~ (1 <= n <= p_chapter_count doc)%Z ->
             copy_chapter_text project_id n w' = (Raise ChapterNotFound, w')).
Proof.
  intros Hdoc Hval.
  destruct (generate_all_succeeds project_id w doc Hdoc Hval) as [w' Hrun].
  exists w'. split; [exact Hrun|].
  apply generate_all_inv in Hrun as (doc0 & chapters & t & Hdoc0 & Hst & _ & Hnum & Hall).
  assert (doc0 = doc) as -> by congruence.
  intros n. split.
  - intros Hn. destruct (numbered_find chapters _ n Hnum Hn) as (c & Hfind & Hc).
    rewrite (copy_chapter_text_run _ _ _ _ _ _ Hst Hfind).
    apply list_find_Some in Hfind as (Hlook & _ & _).
    pose proof (proj1 (Forall_lookup _ _) Hall _ _ Hlook) as (Ht & Hti & _ & Hwc).
    cbv beta in *. rewrite Hwc, Hti, Ht, Hc. done.
  - intros Hn. apply (copy_chapter_text_missing _ _ _ _ Hst).
    by apply (numbered_find_None _ _ _ Hnum).
Qed.

Lemma copy_after_generate_all_witness :
  let doc := sample_project sample_outline [sample_chapter 7 (py "Old")] in
  stored_project (sample_world doc) sample_id = Some doc
  /\ Project_validate doc = true
  /\ copy_chapter_text sample_id 7 (snd (generate_all sample_id (sample_world doc)))
     = (Raise (HTTPException 404 "Chapter not found"),
        snd (generate_all sample_id (sample_world doc))).
Proof.
  intros doc.
  assert (H1 : stored_project (sample_world doc) sample_id = Some doc)
    by reflexivity.
  assert (H2 : Project_validate doc = true) by reflexivity.
  split; [exact H1|]. split; [exact H2|].
  destruct (copy_after_generate_all sample_id (sample_world doc) doc H1 H2)
    as (w' & Hrun & Hcopy).
  rewrite Hrun. cbn [snd].
  apply (proj2 (Hcopy 7%Z)). cbn. lia.
Defined.

(** X20. [create_project] validates before it stores: a request whose
    chapter count is outside 3..6 fails in the validation of [Project],
    after one reading of the clock, without the helper that writes the
    document being run; a request with a chapter count in 3..6 (and a
    mode and genre of the request schema) hands that helper a project
    without chapters whose creation and update times are that one
    reading. *)
Theorem create_project_validates
    (create_document : string -> Project -> M pystr)
    (req : CreateProjectRequest) (w : World) :
  literal [py "female"; py "male"; py "dual"] (new_pov_mode req) = true ->
  match new_genre req with
  | None => True
  | Some g => literal [py "billionaire"; py "werewolf"; py "mafia"; py "general"] g = true
  end ->
  (~ (3 <= new_chapter_count req <= 6)%Z ->
   create_project create_document req w = (Raise ValidationError, tick w))
  /\ ((3 <= new_chapter_count req <= 6)%Z ->
      create_project create_document req w
      = (pid <- create_document "project"%string
                  (new_project req (clock w (ticks w))) ;;
         ret pid) (tick w)).
Proof.
  intros Hpov Hgenre.
  assert (Hrun : create_project create_document req w
                 = (if Project_validate (new_project req (clock w (ticks w)))
                    then (pid <- create_document "project"%string
                                   (new_project req (clock w (ticks w))) ;;
                          ret pid) (tick w)
                    else (Raise ValidationError, tick w))).
  { unfold create_project. unfold bind at 1. unfold now.
    unfold bind at 1. unfold Project_of_doc.
    by destruct (Project_validate _). }
  rewrite Hrun. clear Hrun.
  assert (Hv : Project_validate (new_project req (clock w (ticks w)))
               = (3 <=? new_chapter_count req)%Z && (new_chapter_count req <=? 6)%Z).
  { unfold Project_validate. cbn [new_project p_chapter_count p_pov_mode p_genre
      p_chapters forallb]. rewrite Hpov.
    destruct (new_genre req); [rewrite Hgenre|];
      by rewrite !andb_true_r. }
  rewrite Hv. split; intros Hn.
  - destruct (_ && _) eqn:E; [|done].
    apply andb_true_iff in E as [E1 E2]. apply Z.leb_le in E1, E2. lia.
  - destruct Hn as [E1 E2]. apply Z.leb_le in E1, E2. by rewrite E1, E2.
Qed.

Lemma create_project_validates_witness :
  literal [py "female"; py "male"; py "dual"] (new_pov_mode sample_request) = true
  /\ ~ (3 <= new_chapter_count sample_request <= 6)%Z
  /\ create_project (fun _ _ => ret sample_id) sample_request unconfigured_world
     = (Raise ValidationError, tick unconfigured_world).
Proof.
  assert (H1 : literal [py "female"; py "male"; py "dual"]
                 (new_pov_mode sample_request) = true) by reflexivity.
  assert (H2 : ~ (3 <= new_chapter_count sample_request <= 6)%Z)
    by (simpl; lia).
  split; [exact H1|]. split; [exact H2|].
  exact (proj1 (create_project_validates (fun _ _ => ret sample_id)
                  sample_request unconfigured_world H1 eq_refl) H2).
Defined.

End Generating.

(** * Schema validity of the stored document, and the trimming branch *)

Section Validity.
Import Py PyFacts.

Lemma set_chapters_validate chapters t doc :
  Project_validate doc = true ->
  Project_validate (set_chapters chapters t doc) = forallb Chapter_validate chapters.
Proof.
  unfold Project_validate. cbn [set_chapters p_chapter_count p_pov_mode p_genre p_chapters].
  intros H. apply andb_true_iff in H as [H _]. by rewrite H.
Qed.

Lemma project_chapters_valid doc :
  Project_validate doc = true -> forallb Chapter_validate (p_chapters doc) = true.
Proof. unfold Project_validate. by intros [_ H]%andb_true_iff. Qed.

Lemma forallb_insert {A} (f : A -> bool) (l : list A) i x y :
  l !! i = Some x -> forallb f l = true ->
  forallb f (<[i := y]> l) = f y.
Proof.
  revert i. induction l as [|a l IH]; intros [|i] Hi Hall; try done; simpl in *.
  - apply andb_true_iff in Hall as [_ ->]. apply andb_true_r.
  - apply andb_true_iff in Hall as [-> Hall]. by rewrite (IH i).
Qed.

Lemma edited_chapter_validate body c t :
  Chapter_validate c = true ->
  Chapter_validate (set_updated_at (edit_fields body c) t)
  = match body_title body with
    | Some [] => false
    | _ => true
    end.
Proof.
  unfold Chapter_validate.
  cbn [set_updated_at ch_number ch_title ch_text ch_word_count ch_pov].
  intros H. repeat (apply andb_true_iff in H as [H ?]).
  unfold edit_fields.
  destruct (body_title body) as [[|a s]|], (body_text body) as [t'|];
    cbn [set_title set_text ch_number ch_title ch_text ch_word_count ch_pov];
    repeat match goal with H : _ = true |- _ => rewrite H end;
    try reflexivity;
    try (pose proof (enforce_word_range_nonempty t') as Hne;
         destruct (enforce_word_range t'); [done|];
         cbn [length Nat.leb andb];
         repeat match goal with H : _ = true |- _ => rewrite H end;
         try (replace (0 <=? Z.of_nat _)%Z with true
                by (symmetry; apply Z.leb_le; lia));
         reflexivity).
Qed.

(** X21. [edit_chapter] keeps the stored document valid for the schema
    unless it is given an empty title: after a successful edit of a valid
    project the document passes the validation of [Project] exactly when
    the body's title is not the empty string. After an edit with an empty
    title, [generate_chapter] and [generate_all] fail in validation,
    whatever the request. *)
Theorem edit_chapter_validity (project_id : pystr) (chapter_number : Z)
    (body : EditChapterRequest) (w : World) doc c' w' :
  stored_project w project_id = Some doc ->
  Project_validate doc = true ->
  edit_chapter project_id chapter_number body w = (Ok c', w') ->
  exists doc',
    stored_project w' project_id = Some doc'
    /\ (Project_validate doc' = true <-> body_title body <> Some [])
    /\ (body_title body = Some [] ->
        (forall req, generate_chapter project_id req w' = (Raise ValidationError, w'))
        /\ generate_all project_id w' = (Raise ValidationError, w')).
Proof.
  intros Hdoc Hval Hrun.
  apply edit_chapter_inv in Hrun as (doc0 & idx & c & Hdoc0 & Hidx & -> & Hst).
  assert (doc0 = doc) as -> by congruence.
  eexists. split; [exact Hst|].
  apply list_find_Some in Hidx as (Hlook & _ & _).
  pose proof (project_chapters_valid doc Hval) as Hall.
  assert (Hc : Chapter_validate c = true).
  { apply (proj1 (forallb_forall _ _) Hall). apply list_elem_of_In.
    by eapply list_elem_of_lookup_2. }
  assert (Hv : Project_validate
                 (set_chapters
                    (<[idx := set_updated_at (edit_fields body c) (clock w (ticks w))]>
                       (p_chapters doc)) (clock w (S (ticks w))) doc)
               = match body_title body with Some [] => false | _ => true end).
  { rewrite set_chapters_validate by done.
    rewrite (forallb_insert _ _ _ _ _ Hlook Hall).
    by apply edited_chapter_validate. }
  split.
  - rewrite Hv. destruct (body_title body) as [[|a s]|]; split; done.
  - intros Ht. rewrite Ht in Hv.
    assert (Hf : forall k : Project -> M Chapter,
               (doc <- find_project project_id ;; project <- Project_of_doc doc ;; k project) w'
               = (Raise ValidationError, w')).
    { intros k.
      rewrite (bind_run_Ok _ _ _ _ _ (find_project_stored _ _ _ Hst)).
      unfold bind, Project_of_doc. by rewrite Hv. }
    split.
    + intros req. apply Hf.
    + unfold generate_all.
      rewrite (bind_run_Ok _ _ _ _ _ (find_project_stored _ _ _ Hst)).
      unfold bind, Project_of_doc. by rewrite Hv.
Qed.

Lemma edit_chapter_validity_witness :
  let doc := sample_project sample_outline [sample_chapter 1 (py "One")] in
  let run := edit_chapter sample_id 1 (title_only []) (sample_world doc) in
  let c' := result_value (sample_chapter 0 []) (fst run) in
  stored_project (sample_world doc) sample_id = Some doc
  /\ Project_validate doc = true
  /\ run = (Ok c', snd run)
  /\ generate_all sample_id (snd run) = (Raise ValidationError, snd run).
Proof.
  intros doc run c'.
  assert (H1 : stored_project (sample_world doc) sample_id = Some doc)
    by reflexivity.
  assert (H2 : Project_validate doc = true) by reflexivity.
  assert (H3 : run = (Ok c', snd run)) by (vm_compute; reflexivity).
  split; [exact H1|]. split; [exact H2|]. split; [exact H3|].
  destruct (edit_chapter_validity sample_id 1%Z (title_only [])
              (sample_world doc) doc c' (snd run) H1 H2 H3)
    as (doc' & _ & _ & Hgen).
  exact (proj2 (Hgen eq_refl)).
Defined.

(** X22. Where the trimming branch cuts. For a text of more than 1800
    words, let the cut be its first 1800 words joined by single spaces.
    When the last full stop of the cut is at a character index above
    1600, the result is the prefix of the cut that ends with this full
    stop; otherwise (no full stop, or none beyond index 1600) the result
    is the whole cut, of exactly 1800 words. *)
Theorem enforce_word_range_long_cut (text : pystr) :
  target_max < compute_word_count text ->
  let trimmed := join space (take target_max (split text)) in
  ((1600 < rfind dot trimmed)%Z ->
   enforce_word_range text = take (Z.to_nat (rfind dot trimmed + 1)) trimmed
   /\ last (enforce_word_range text) = Some dot)
  /\ ((rfind dot trimmed <= 1600)%Z ->
      enforce_word_range text = trimmed
      /\ compute_word_count (enforce_word_range text) = target_max).
Proof.
  intros Hn trimmed.
  rewrite (enforce_word_range_long text Hn). unfold trim_long. fold trimmed.
  change (Z.of_nat target_max - 200)%Z with 1600%Z.
  split; intros Hd.
  - assert (H1 : (rfind dot trimmed =? -1)%Z = false) by (apply Z.eqb_neq; lia).
    assert (H2 : (1600 <? rfind dot trimmed)%Z = true) by (by apply Z.ltb_lt).
    rewrite H1, H2. cbn [negb andb]. split; [done|].
    replace (Z.to_nat (rfind dot trimmed + 1))
      with (S (Z.to_nat (rfind dot trimmed))) by lia.
    apply last_take_lookup, rfind_lookup. lia.
  - assert (H2 : (1600 <? rfind dot trimmed)%Z = false) by (apply Z.ltb_ge; lia).
    rewrite H2, andb_false_r. split; [done|].
    unfold trimmed. rewrite compute_word_count_split in *.
    rewrite split_join by apply Forall_take, split_is_word.
    rewrite length_take. lia.
Qed.

Lemma enforce_word_range_long_cut_witness :
  target_max < compute_word_count long_input
  /\ (1600 < rfind dot (join space (take target_max (split long_input))))%Z
  /\ last (enforce_word_range long_input) = Some dot.
Proof.
  assert (H1 : target_max < compute_word_count long_input) by compute_done.
  assert (H2 : (1600 < rfind dot (join space (take target_max (split long_input))))%Z)
    by compute_done.
  split; [exact H1|]. split; [exact H2|].
  exact (proj2 (proj1 (enforce_word_range_long_cut long_input H1) H2)).
Defined.

End Validity.

(** * The text stored by an edit *)

Section EditText.
Import Py PyFacts.

(** The result of [enforce_word_range] in terms of [split], [join] and
    [rfind] alone, for each of its three branches. *)
Lemma enforce_word_range_tokens (text : pystr) :
  enforce_word_range text = join space (split (enforce_word_range text))
  /\ (length (split text) <= target_max ->
      target_min <= length (split (enforce_word_range text)) <= target_max
      /\ exists k,
           split (enforce_word_range text)
           = split text ++ concat (replicate k (split filler))
           /\ (target_min <= length (split text) -> k = 0)
           /\ (length (split text) < target_min ->
               length (split (enforce_word_range text)) < target_min + 39))
  /\ (target_max < length (split text) ->
      length (split (enforce_word_range text)) <= target_max
      /\ enforce_word_range text
         = let trimmed := join space (take target_max (split text)) in
           if (1600 <? rfind dot trimmed)%Z
           then take (Z.to_nat (rfind dot trimmed + 1)) trimmed
           else trimmed).
Proof.
  split; [symmetry; apply enforce_word_range_join_split|].
  pose proof (enforce_word_range_le_max text) as Hle.
  rewrite compute_word_count_split in Hle.
  destruct (enforce_word_range_cases text)
    as [(Hn & ws & Hp & He)|[(Hn & He)|(Hn & He)]].
  - split; [intros _|unfold target_min, target_max in *; lia].
    pose proof Hp as Hp'.
    apply pad_loop_spec in Hp as (Hw & Hlo & Hhi & _); [|apply split_is_word].
    specialize (Hhi Hn).
    rewrite He, split_join by done.
    split; [unfold target_min, target_max in *; lia|].
    apply pad_loop_appends in Hp' as [k ->].
    exists k. split; [done|]. split; [lia|done].
  - split; [intros _|lia].
    rewrite He, split_join by apply split_is_word.
    split; [lia|]. exists 0. split; [by rewrite app_nil_r|]. split; [done|lia].
  - split; [lia|intros _]. split; [done|].
    rewrite He. unfold trim_long. cbv zeta.
    change (Z.of_nat target_max - 200)%Z with 1600%Z.
    destruct (1600 <? rfind dot _)%Z eqn:E.
    + apply Z.ltb_lt in E.
      replace (rfind dot (join space (take target_max (split text))) =? -1)%Z
        with false by (symmetry; apply Z.eqb_neq; lia).
      reflexivity.
    + by rewrite andb_false_r.
Qed.

(** C9. An [edit_chapter] request with a text and no title, addressed to
    an existing chapter of an existing project, succeeds. The stored
    chapter gets the range-enforced text, which is stated here without
    [enforce_word_range]: the stored text is its own tokens joined by
    single spaces; for a new text of at most 1800 tokens it has 1400 to
    1800 tokens, which are the tokens of the new text followed by as many
    whole copies of the 39-token filler as it takes to reach 1400 (none
    when the new text has 1400 already); for a new text of more than 1800
    tokens it is the first 1800 tokens joined by single spaces, cut back
    to the last full stop when that is at a character index above 1600
    (which can leave fewer than 1400 tokens). The stored [word_count] is
    the number of whitespace-separated tokens of the stored text, and
    [updated_at] is the current time; the title and the other fields of
    the chapter are unchanged, and so are all other chapters of the
    list. *)
Theorem edit_chapter_text_only project_id chapter_number t w doc idx c :
  stored_project w project_id = Some doc ->
  list_find (fun c => ch_number c = chapter_number) (p_chapters doc) = Some (idx, c) ->
  exists c' w' doc',
    edit_chapter project_id chapter_number (text_only t) w = (Ok c', w')
    /\ stored_project w' project_id = Some doc'
    /\ p_chapters doc' !! idx = Some c'
    /\ ch_text c' = enforce_word_range t
    /\ ch_text c' = join space (split (ch_text c'))
    /\ (length (split t) <= target_max ->
        target_min <= length (split (ch_text c')) <= target_max
        /\ exists k,
             split (ch_text c') = split t ++ concat (replicate k (split filler))
             /\ (target_min <= length (split t) -> k = 0)
             /\ (length (split t) < target_min ->
                 length (split (ch_text c')) < target_min + 39))
    /\ (target_max < length (split t) ->
        length (split (ch_text c')) <= target_max
        /\ ch_text c'
           = let trimmed := join space (take target_max (split t)) in
             if (1600 <? rfind dot trimmed)%Z
             then take (Z.to_nat (rfind dot trimmed + 1)) trimmed
             else trimmed)
    /\ ch_word_count c' = Z.of_nat (length (split (ch_text c')))
    /\ ch_title c' = ch_title c
    /\ ch_updated_at c' = Some (clock w (ticks w))
    /\ ch_number c' = ch_number c
    /\ ch_pov c' = ch_pov c
    /\ ch_created_at c' = ch_created_at c
    /\ length (p_chapters doc') = length (p_chapters doc)
    /\ forall j, j <> idx -> p_chapters doc' !! j = p_chapters doc !! j.
Proof.
  intros Hdoc Hidx.
  destruct (edit_text_only_run project_id chapter_number t w doc idx c
              Hdoc Hidx)
    as (c' & w' & doc' & Hrun & Hst & Hat & Htext & Hcount & Hrest).
  destruct (enforce_word_range_tokens t) as (Hnorm & Hshort & Hlong).
  exists c', w', doc'.
  rewrite Hcount, compute_word_count_split, Htext.
  split_and!; try done; apply Hrest.
Qed.

Lemma edit_chapter_text_only_witness :
  let doc := sample_project sample_outline
               [sample_chapter 2 (py "Two"); sample_chapter 1 (py "One")] in
  let w := sample_world doc in
  stored_project w sample_id = Some doc
  /\ list_find (fun c => ch_number c = 1%Z) (p_chapters doc)
     = Some (1, sample_chapter 1 (py "One"))
  /\ length (split (py "New text.")) <= target_max
  /\ exists c' w',
       edit_chapter sample_id 1 (text_only (py "New text.")) w = (Ok c', w')
       /\ ch_title c' = py "One"
       /\ target_min <= length (split (ch_text c')) <= target_max
       /\ ch_word_count c' = Z.of_nat (length (split (ch_text c')))
       /\ (p_chapters <$> stored_project w' sample_id)
          = Some [sample_chapter 2 (py "Two"); c'].
Proof.
  intros doc w.
  assert (H1 : stored_project w sample_id = Some doc) by reflexivity.
  assert (H2 : list_find (fun c => ch_number c = 1%Z) (p_chapters doc)
               = Some (1, sample_chapter 1 (py "One"))) by reflexivity.
  assert (H3 : length (split (py "New text.")) <= target_max) by compute_done.
  split; [exact H1|]. split; [exact H2|]. split; [exact H3|].
  destruct (edit_chapter_text_only sample_id 1%Z (py "New text.") w doc 1
              (sample_chapter 1 (py "One")) H1 H2)
    as (c' & w' & doc' & Hrun & Hst & Hat & _ & _ & Hshort & _ & Hcount & Htitle
        & _ & _ & _ & _ & Hlen & Hother).
  exists c', w'. split; [exact Hrun|]. split; [exact Htitle|].
  split; [exact (proj1 (Hshort H3))|]. split; [exact Hcount|].
  rewrite Hst. cbn [fmap option_fmap option_map]. f_equal.
  destruct (p_chapters doc') as [|a [|b [|? ?]]]; try discriminate Hlen.
  specialize (Hother 0 ltac:(lia)).
  injection Hother as ->. injection Hat as ->. reflexivity.
Defined.

End EditText.
